(** * SHeM ray tracing: the intersection kernel, the ray propagator and the
      MEX gateway, embedded in Rocq.

    The C sources compute on [double]; the embedding uses Rocq's primitive
    binary64 floats, so every definition below runs on concrete inputs as
    IEEE 754 double arithmetic evaluates the C expressions, operation by
    operation.  A C [int] is a [Z]; the counters of the gateway are
    bounded by the number of rays, itself an [int], so no wrap-around occurs in
    them.  Output parameters passed by address are gathered in records that the
    functions take and return. *)

From Stdlib Require Import ZArith List Bool Lia Floats String.
From Stdlib Require Import DecimalString.
Import ListNotations.

Set Warnings "-inexact-float".

(** ** Vectors and small linear algebra *)

Module Geometry.

Local Open Scope float_scope.

(** A [double[3]]. *)
Record vec3 : Set := Vec3 { c0 : float; c1 : float; c2 : float }.

(** A [double[3][3]], row by row. *)
Record mat3 : Set := Mat3 {
  m00 : float; m01 : float; m02 : float;
  m10 : float; m11 : float; m12 : float;
  m20 : float; m21 : float; m22 : float }.

Definition zero3 : vec3 := Vec3 0 0 0.

(** Modelled from the spec: [dot] of the geometry primitives (section 4.2);
    its C body, in small_functions3D.c, is not among the sources. *)
Definition dot (a b : vec3) : float :=
  c0 a * c0 b + c1 a * c1 b + c2 a * c2 b.

(** Modelled from the spec: [propagate(origin, dir, t) = origin + t*dir]
    (section 4.2); the C body is not among the sources. *)
Definition propagate (init direction : vec3) (a : float) : vec3 :=
  Vec3 (c0 init + a * c0 direction)
       (c1 init + a * c1 direction)
       (c2 init + a * c2 direction).

(** Modelled from the spec: [norm] of the geometry primitives (section 4.2);
    the C bodies of [norm] and [normalise] are not among the sources. *)
Definition norm (v : vec3) : float := PrimFloat.sqrt (dot v v).

(** Modelled from the spec: [normalise] divides a vector by its norm. *)
Definition normalise (v : vec3) : vec3 :=
  let magnitude := norm v in
  Vec3 (c0 v / magnitude) (c1 v / magnitude) (c2 v / magnitude).

(** Modelled from the spec: [reflect(d, n) = d - 2(d.n)n] (section 4.2). *)
Definition reflect (d n : vec3) : vec3 :=
  let k := 2 * dot d n in
  Vec3 (c0 d - k * c0 n) (c1 d - k * c1 n) (c2 d - k * c2 n).

(** The determinant of a 3x3 matrix, expanded along its first row. *)
Definition det3 (A : mat3) : float :=
  m00 A * (m11 A * m22 A - m12 A * m21 A)
  - m01 A * (m10 A * m22 A - m12 A * m20 A)
  + m02 A * (m10 A * m21 A - m11 A * m20 A).

(** Modelled from the spec: [solve3x3(A, v, eps)] returns [(u, ok)] where [ok]
    is false iff [|det A| <= eps] (section 4.2); the C body, in
    small_functions3D.c, is not among the sources.  The solution is written by
    Cramer's rule; on failure [u] keeps the value the caller initialised it
    with. *)
Definition solve3x3 (A : mat3) (u v : vec3) (epsilon : float) : vec3 * bool :=
  let D := det3 A in
  if abs D <=? epsilon then (u, false)
  else
    let Dx := det3 (Mat3 (c0 v) (m01 A) (m02 A)
                         (c1 v) (m11 A) (m12 A)
                         (c2 v) (m21 A) (m22 A)) in
    let Dy := det3 (Mat3 (m00 A) (c0 v) (m02 A)
                         (m10 A) (c1 v) (m12 A)
                         (m20 A) (c2 v) (m22 A)) in
    let Dz := det3 (Mat3 (m00 A) (m01 A) (c0 v)
                         (m10 A) (m11 A) (c1 v)
                         (m20 A) (m21 A) (c2 v)) in
    (Vec3 (Dx / D) (Dy / D) (Dz / D), true).

End Geometry.

(** ** The structs of ray_tracing_structs3D.h, as the sources use them *)

Module Structs.

Import Geometry.

(** [Ray3D]: position, direction, the element and surface the ray sits on
    ([-1] for none) and the number of scattering events so far. *)
Record Ray3D : Set := mkRay {
  position : vec3;
  direction : vec3;
  on_element : Z;
  on_surface : Z;
  nScatters : Z }.

(** [AnalytSphere]: only the fields the intersection test reads, and the
    presence flag. *)
Record AnalytSphere : Set := mkSphere {
  make_sphere : Z;
  sphere_c : vec3;
  sphere_r : float;
  sphere_surf_index : Z }.

(** One face of a triangulated surface as [get_element3D] delivers it: the
    three vertices and the face normal. *)
Record Element : Set := mkElement {
  el_a : vec3; el_b : vec3; el_c : vec3; el_normal : vec3 }.

(** [Surface3D]: the faces in order, and the surface identifier.  The vertex,
    face and normal arrays of the C struct are read only through
    [get_element3D], so they are kept as the sequence of elements it returns. *)
Record Surface3D : Set := mkSurface {
  elements : list Element;
  surf_index : Z }.

Definition n_faces (s : Surface3D) : Z := Z.of_nat (List.length (elements s)).

Definition null_element : Element := mkElement zero3 zero3 zero3 zero3.

(** Modelled from the spec: [get_element(surface, j) -> (a, b, c, normal)]
    (section 4.3); the C body, in ray_tracing_core3D.c, is not among the
    sources. *)
Definition get_element3D (s : Surface3D) (j : Z) : Element :=
  nth (Z.to_nat j) (elements s) null_element.

(** One detector aperture, the part of [BackWall] that [multiBackWall] reads:
    centre [(x, z)] on the plate and the two full axes. *)
Record BackWall : Set := mkAperture {
  aperture_c : float * float;
  aperture_axes : float * float }.

(** [NBackWall]: the ordered apertures, the plate radius, the flag saying
    whether the plate itself scatters, and the surface identifier. *)
Record NBackWall : Set := mkPlate {
  apertures : list BackWall;
  circle_plate_r : float;
  plate_represent : Z;
  plate_surf_index : Z }.

Definition n_detect (w : NBackWall) : Z := Z.of_nat (List.length (apertures w)).

Definition null_aperture : BackWall := mkAperture (0, 0)%float (0, 0)%float.

(** Modelled from the spec: the aperture set is an ordered sequence (section
    3); [get_nth_aperture], in ray_tracing_core3D.c, is not among the
    sources. *)
Definition get_nth_aperture (i : Z) (w : NBackWall) : BackWall :=
  nth (Z.to_nat i) (apertures w) null_aperture.

(** The nearest-intersection record that the three tests share through their
    pointer arguments [min_dist], [nearest_inter], [nearest_n], [tri_hit] and
    [which_surface]. *)
Record Nearest : Set := mkNearest {
  min_dist : float;
  nearest_inter : vec3;
  nearest_n : vec3;
  tri_hit : Z;
  which_surface : Z }.

End Structs.

(** ** intersect_detection3D.c *)

Module Intersect.

Import Geometry Structs.
Local Open Scope float_scope.

(** The coefficients of the quadratic of [scatterSphere], as the C code
    computes them. *)
Definition sphere_beta (the_ray : Ray3D) (the_sphere : AnalytSphere) : float :=
  let e := position the_ray in
  let d := direction the_ray in
  let a := c0 (sphere_c the_sphere) in
  let b := c1 (sphere_c the_sphere) in
  let c := c2 (sphere_c the_sphere) in
  2 * (c0 d * (c0 e - a) + c1 d * (c1 e - b) + c2 d * (c2 e - c)).

Definition sphere_gamma (the_ray : Ray3D) (the_sphere : AnalytSphere) : float :=
  let e := position the_ray in
  let a := c0 (sphere_c the_sphere) in
  let b := c1 (sphere_c the_sphere) in
  let c := c2 (sphere_c the_sphere) in
  let r := sphere_r the_sphere in
  (- r) * r - 2 * c0 e * a - 2 * c1 e * b - 2 * c2 e * c
  + c0 e * c0 e + c1 e * c1 e + c2 e * c2 e + a * a + b * b + c * c.

Definition sphere_discriminant (the_ray : Ray3D) (the_sphere : AnalytSphere) : float :=
  let beta := sphere_beta the_ray the_sphere in
  let gamma := sphere_gamma the_ray the_sphere in
  beta * beta - 4 * gamma.

(** "Solve the quadratic equation. Take the smaller root". *)
Definition sphere_distance (the_ray : Ray3D) (the_sphere : AnalytSphere) : float :=
  let beta := sphere_beta the_ray the_sphere in
  let gamma := sphere_gamma the_ray the_sphere in
  (- beta - PrimFloat.sqrt (beta * beta - 4 * gamma)) / 2.

(** [scatterSphere]: returns the record and [meets_sphere]. *)
Definition scatterSphere (the_ray : Ray3D) (the_sphere : AnalytSphere)
    (st : Nearest) : Nearest * Z :=
  let e := position the_ray in
  let d := direction the_ray in
  let a := c0 (sphere_c the_sphere) in
  let b := c1 (sphere_c the_sphere) in
  let c := c2 (sphere_c the_sphere) in
  let beta := sphere_beta the_ray the_sphere in
  let gamma := sphere_gamma the_ray the_sphere in
  if beta * beta - 4 * gamma <? 0 then (st, 0%Z)
  else
    let distance := (- beta - PrimFloat.sqrt (beta * beta - 4 * gamma)) / 2 in
    if (distance * distance <? min_dist st) && (0 <? distance) then
      let n := Vec3 ((c0 e + distance * c0 d - a) / sphere_r the_sphere)
                    ((c1 e + distance * c1 d - b) / sphere_r the_sphere)
                    ((c2 e + distance * c2 d - c) / sphere_r the_sphere) in
      let inter := Vec3 (c0 e + c0 d * distance)
                        (c1 e + c1 d * distance)
                        (c2 e + c2 d * distance) in
      (mkNearest (distance * distance) inter (normalise n) (-1)%Z
                 (sphere_surf_index the_sphere), 1%Z)
    else (st, 0%Z).

(** The square of the smaller root, compared with [min_dist]. *)
Definition sphere_dist (the_ray : Ray3D) (the_sphere : AnalytSphere) : float :=
  sphere_distance the_ray the_sphere * sphere_distance the_ray the_sphere.

(** The record that [scatterSphere] writes on a hit. *)
Definition sphere_record (the_ray : Ray3D) (the_sphere : AnalytSphere) : Nearest :=
  let e := position the_ray in
  let d := direction the_ray in
  let distance := sphere_distance the_ray the_sphere in
  let n := Vec3 ((c0 e + distance * c0 d - c0 (sphere_c the_sphere)) / sphere_r the_sphere)
                ((c1 e + distance * c1 d - c1 (sphere_c the_sphere)) / sphere_r the_sphere)
                ((c2 e + distance * c2 d - c2 (sphere_c the_sphere)) / sphere_r the_sphere) in
  mkNearest (distance * distance)
            (Vec3 (c0 e + c0 d * distance) (c1 e + c1 d * distance) (c2 e + c2 d * distance))
            (normalise n) (-1)%Z (sphere_surf_index the_sphere).

(** C's [for (j = 0; j < n; j++) body], the body taking the index and the
    variables it updates; [continue] is a body that returns them unchanged. *)
Fixpoint for_loop {S : Type} (n : nat) (j : Z) (body : Z -> S -> S) (s : S) : S :=
  match n with
  | O => s
  | Datatypes.S n' => for_loop n' (j + 1)%Z body (body j s)
  end.

(** A vertex is `behind' the ray position [e] along [d]. *)
Definition behind (e d vtx : vec3) : bool :=
  let v := Vec3 (c0 vtx - c0 e) (c1 vtx - c1 e) (c2 vtx - c2 e) in
  c0 v * c0 d + c1 v * c1 d + c2 v * c2 d <? 0.

(** The matrix [AA] and right-hand side [v] of [AA u = v]. *)
Definition triag_matrix (d a b c : vec3) : mat3 :=
  Mat3 (c0 a - c0 b) (c0 a - c0 c) (c0 d)
       (c1 a - c1 b) (c1 a - c1 c) (c1 d)
       (c2 a - c2 b) (c2 a - c2 c) (c2 d).

Definition triag_rhs (e a : vec3) : vec3 :=
  Vec3 (c0 a - c0 e) (c1 a - c1 e) (c2 a - c2 e).

Definition epsilon : float := 0.0000000001.

(** "Find if the point of intersection is inside the triangle.  Must also
    find if the ray is propagating forwards". *)
Definition inside_forward (u : vec3) : bool :=
  (0 <=? c0 u) && (0 <=? c1 u) && (c0 u + c1 u <=? 1) && (0 <? c2 u).

Definition triag_new_loc (e d u : vec3) : vec3 :=
  Vec3 (c0 e + c2 u * c0 d) (c1 e + c2 u * c1 d) (c2 e + c2 u * c2 d).

(** The squared length of the movement from [e] to [new_loc]. *)
Definition triag_dist (e new_loc : vec3) : float :=
  let movment := Vec3 (c0 new_loc - c0 e) (c1 new_loc - c1 e) (c2 new_loc - c2 e) in
  c0 movment * c0 movment + c1 movment * c1 movment + c2 movment * c2 movment.

(** The three tests that make the loop pass over triangle [j] before the
    linear solve: the ray sits on it, it is back-facing, or its three vertices
    are behind the ray.  [considered] is true when none applies. *)
Definition considered (the_ray : Ray3D) (sample : Surface3D) (j : Z) : bool :=
  let e := position the_ray in
  let d := direction the_ray in
  let el := get_element3D sample j in
  negb ((on_element the_ray =? j)%Z && (on_surface the_ray =? surf_index sample)%Z)
  && negb (0 <? dot (el_normal el) d)
  && negb (behind e d (el_a el) && behind e d (el_b el) && behind e d (el_c el)).

(** The linear system of triangle [j] and what [solve3x3] returns for it. *)
Definition triag_system (the_ray : Ray3D) (sample : Surface3D) (j : Z) : mat3 :=
  let el := get_element3D sample j in
  triag_matrix (direction the_ray) (el_a el) (el_b el) (el_c el).

Definition triag_solution (the_ray : Ray3D) (sample : Surface3D) (j : Z) : vec3 * bool :=
  let el := get_element3D sample j in
  solve3x3 (triag_system the_ray sample j) zero3
           (triag_rhs (position the_ray) (el_a el)) epsilon.

(** The squared distance to the candidate on triangle [j], and the record
    written when it is the nearest so far. *)
Definition triag_candidate_dist (the_ray : Ray3D) (sample : Surface3D) (j : Z) : float :=
  let e := position the_ray in
  triag_dist e (triag_new_loc e (direction the_ray) (fst (triag_solution the_ray sample j))).

Definition triag_record (the_ray : Ray3D) (sample : Surface3D) (j : Z) : Nearest :=
  let e := position the_ray in
  let new_loc := triag_new_loc e (direction the_ray) (fst (triag_solution the_ray sample j)) in
  mkNearest (triag_dist e new_loc) new_loc (el_normal (get_element3D sample j)) j
            (surf_index sample).

(** The body of the loop of [scatterTriag] for triangle [j], on the record and
    the flag [meets]. *)
Definition scatterTriag_body (the_ray : Ray3D) (sample : Surface3D) (j : Z)
    (s : Nearest * Z) : Nearest * Z :=
  let e := position the_ray in
  let d := direction the_ray in
  if ((on_element the_ray =? j)%Z && (on_surface the_ray =? surf_index sample)%Z)%bool
  then s
  else
    let el := get_element3D sample j in
    let a := el_a el in
    let b := el_b el in
    let c := el_c el in
    let normal := el_normal el in
    let test := dot normal d in
    if 0 <? test then s
    else if behind e d a && behind e d b && behind e d c then s
    else
      let v := triag_rhs e a in
      let AA := triag_matrix d a b c in
      let '(u, success) := solve3x3 AA zero3 v epsilon in
      if negb success then s
      else if inside_forward u then
        let new_loc := triag_new_loc e d u in
        let dist := triag_dist e new_loc in
        if dist <? min_dist (fst s)
        then (mkNearest dist new_loc normal j (surf_index sample), 1%Z)
        else (fst s, 1%Z)
      else s.

(** [scatterTriag]: returns the record and [meets]. *)
Definition scatterTriag (the_ray : Ray3D) (sample : Surface3D)
    (st : Nearest) (meets : Z) : Nearest * Z :=
  for_loop (Z.to_nat (n_faces sample)) 0%Z
           (scatterTriag_body the_ray sample) (st, meets).

(** The ellipse test of one aperture at the point where the ray meets the
    plane of the plate. *)
Definition aperture_test (wall_hit : vec3) (plate : BackWall) : float :=
  let x_disp := c0 wall_hit - fst (aperture_c plate) in
  let y_disp := c2 wall_hit - snd (aperture_c plate) in
  x_disp * x_disp /
    (0.25 * fst (aperture_axes plate) * fst (aperture_axes plate)) +
  y_disp * y_disp /
    (0.25 * snd (aperture_axes plate) * snd (aperture_axes plate)).

(** The loop over the apertures, from index [i], with its [break]; it returns
    the last value of [test] and [which_aperture]. *)
Fixpoint aperture_loop (n : nat) (i : Z) (wallPlate : NBackWall)
    (wall_hit : vec3) (test : float) (which_aperture : Z) : float * Z :=
  match n with
  | O => (test, which_aperture)
  | Datatypes.S n' =>
      let plate := get_nth_aperture i wallPlate in
      let test' := aperture_test wall_hit plate in
      if test' <? 1 then (test', (i + 1)%Z)
      else aperture_loop n' (i + 1)%Z wallPlate wall_hit test' which_aperture
  end.

Definition backNormal : vec3 := Vec3 0 (-1) 0.

Definition wall_alpha (the_ray : Ray3D) : float :=
  (0 - c1 (position the_ray)) / c1 (direction the_ray).

(** The point where the ray meets the plane [y = 0] of the plate, and the
    square of its distance along the ray. *)
Definition wall_point (the_ray : Ray3D) : vec3 :=
  propagate (position the_ray) (direction the_ray) (wall_alpha the_ray).

Definition wall_dist (the_ray : Ray3D) : float :=
  wall_alpha the_ray * wall_alpha the_ray.

(** The record written when the back wall is the nearest intersection. *)
Definition wall_record (wallPlate : NBackWall) (alpha : float) (wall_hit : vec3)
    : Nearest :=
  mkNearest (alpha * alpha) wall_hit backNormal (-1)%Z (plate_surf_index wallPlate).

(** [multiBackWall]: returns the record, [meets] and [which_aperture]. *)
Definition multiBackWall (the_ray : Ray3D) (wallPlate : NBackWall)
    (st : Nearest) : Nearest * Z * Z :=
  let d := direction the_ray in
  if 0 <? c1 d then
    let e := position the_ray in
    let alpha := (0 - c1 e) / c1 d in
    if min_dist st <? alpha * alpha then (st, 0%Z, 0%Z)
    else
      let wall_hit := propagate e d alpha in
      let '(test, which_aperture) :=
        aperture_loop (Z.to_nat (n_detect wallPlate)) 0%Z wallPlate wall_hit 10 0%Z in
      let scatter_off_plate :=
        let x := c0 wall_hit * c0 wall_hit + c2 wall_hit * c2 wall_hit in
        let r := circle_plate_r wallPlate in
        if (x <=? r * r) && negb (plate_represent wallPlate =? 0)%Z then
          if alpha * alpha <? min_dist st
          then (wall_record wallPlate alpha wall_hit, 1%Z, 0%Z)
          else (st, 1%Z, 0%Z)
        else (st, 0%Z, 0%Z) in
      if test <? 1 then
        if alpha * alpha <? min_dist st
        then (wall_record wallPlate alpha wall_hit, 0%Z, which_aperture)
        else scatter_off_plate
      else scatter_off_plate
  else (st, 0%Z, 0%Z).

(** A test leaves the record [st] as it was, or replaces it by a record [st']
    whose squared distance is strictly smaller. *)
Definition kept_or_nearer (st st' : Nearest) : Prop :=
  st' = st \/ (min_dist st' <? min_dist st) = true.

End Intersect.

(** ** The ray propagator (trace_ray.h, tracing_functions.h)

    Only the declarations and the call sites of these functions are among the
    sources; their bodies are modelled from sections 4.5 and 4.6 of the
    specification, on top of the three intersection tests above. *)

Module Trace.

Import Geometry Structs Intersect.
Local Open Scope Z_scope.

(** The scene of one pixel: sample, analytic sphere, back-wall plate. *)
Record Scene : Set := mkScene {
  Sample : Surface3D;
  the_sphere : AnalytSphere;
  Plate : NBackWall }.

(** What one flight step finds: nothing, a detector aperture, or a surface. *)
Inductive Outcome : Set :=
| Miss
| Aperture (which_aperture : Z) (h : Nearest)
| Surface (h : Nearest).

(** The terminal states of the per-ray state machine. *)
Inductive Terminal : Set :=
| Detected (which_aperture : Z)
| Escaped
| Killed.

Definition no_hit : Nearest := mkNearest infinity zero3 zero3 (-1) (-1).

(** Modelled from the spec: the ordered evaluation of the candidates of
    section 4.5, whose C body ([scatterSimpleMulti], declared in
    tracing_functions.h) is not among the sources.  The candidates are the
    sample triangles, then the sphere if present, then the plate; [with_plate]
    is false when the plate is left out of the test.  The result is the
    record, the three flags and the aperture. *)
Definition candidates (with_plate : bool) (sc : Scene) (the_ray : Ray3D)
    (st0 : Nearest) : Nearest * Z * Z * Z * Z :=
  let '(st1, meets) := scatterTriag the_ray (Sample sc) st0 0 in
  let '(st2, meets_sphere) :=
    if make_sphere (the_sphere sc) =? 0 then (st1, 0)
    else scatterSphere the_ray (the_sphere sc) st1 in
  let '(st3, meets_plate, which_aperture) :=
    if with_plate then multiBackWall the_ray (Plate sc) st2 else (st2, 0, 0) in
  (st3, meets, meets_sphere, meets_plate, which_aperture).

(** Modelled from the spec: [nearest_hit(ray, scene)] of section 4.5.  The
    minimum squared distance starts at +infinity; the ray is detected when the
    plate reports an aperture, has hit a surface when one of the tests met
    one, and has missed otherwise. *)
Definition nearest_hit (with_plate : bool) (sc : Scene) (the_ray : Ray3D) : Outcome :=
  let '(st3, meets, meets_sphere, meets_plate, which_aperture) :=
    candidates with_plate sc the_ray no_hit in
  if negb (which_aperture =? 0) then Aperture which_aperture st3
  else if negb (meets =? 0) || negb (meets_sphere =? 0) || negb (meets_plate =? 0)
       then Surface st3
       else Miss.

Section Propagator.

(** The random number generator and the scattering kernel (distributions3D.c)
    are not among the sources; the propagator takes them as parameters.  The
    kernel receives the incoming direction and the hit, and returns the new
    direction. *)
Variable Rng : Type.
Variable new_direction : vec3 -> Nearest -> Rng -> vec3 * Rng.

(** The first-scatter policy of section 4.6: does the plate take part in the
    first intersection test. *)
Variable first_plate : bool.

Variable sc : Scene.

(** Modelled from the spec: the Scatter state of section 4.6.  The ray moves to
    the hit point, takes the surface and element of the hit, counts one more
    scattering event and receives a new direction from the kernel. *)
Definition scatter (the_ray : Ray3D) (h : Nearest) (rng : Rng) : Ray3D * Rng :=
  let '(d', rng') := new_direction (direction the_ray) h rng in
  (mkRay (nearest_inter h) d' (tri_hit h) (which_surface h)
         (nScatters the_ray + 1), rng').

(** Modelled from the spec: the Flight and Scatter states of section 4.6.
    [None] only when [fuel] steps were not enough. *)
Fixpoint flight (fuel : nat) (with_plate : bool) (maxScatter : Z)
    (the_ray : Ray3D) (rng : Rng) : option (Terminal * Ray3D * Rng) :=
  match fuel with
  | O => None
  | S fuel' =>
      match nearest_hit with_plate sc the_ray with
      | Miss => Some (Escaped, the_ray, rng)
      | Aperture k _ => Some (Detected k, the_ray, rng)
      | Surface h =>
          let '(the_ray', rng') := scatter the_ray h rng in
          if maxScatter <=? nScatters the_ray'
          then Some (Killed, the_ray', rng')
          else flight fuel' true maxScatter the_ray' rng'
      end
  end.

(** Every flight but the last one adds a scattering event, so this many steps
    always reach a terminal state (lemma [flight_terminates]). *)
Definition enough_fuel (maxScatter : Z) (the_ray : Ray3D) : nat :=
  S (Z.to_nat (maxScatter - nScatters the_ray)).

(** Modelled from the spec: the state machine of section 4.6 run from its
    Initial state to a terminal state.  The second branch is never taken
    (lemma [propagate_ray_flight]). *)
Definition propagate_ray (maxScatter : Z) (the_ray : Ray3D) (rng : Rng)
    : Terminal * Ray3D * Rng :=
  match flight (enough_fuel maxScatter the_ray) first_plate maxScatter the_ray rng with
  | Some r => r
  | None => (Killed, the_ray, rng)
  end.

(** Modelled from the spec: [trace_ray_simple] (trace_ray.h), called by the
    gateway as [detected = trace_ray_simple(&the_ray, &killed, &cntr_detected,
    maxScatters, Sample, Plate, the_sphere, my_rng)].  It runs the state
    machine and reduces the outcome into the two counters (section 4.8, step
    2d); the result is [detected], the ray, [killed], [cntr_detected] and the
    generator. *)
Definition trace_ray_simple (the_ray : Ray3D) (killed cntr_detected : Z)
    (maxScatters : Z) (rng : Rng) : Z * Ray3D * Z * Z * Rng :=
  match propagate_ray maxScatters the_ray rng with
  | (Detected _, r, g) => (1, r, killed, cntr_detected + 1, g)
  | (Killed, r, g) => (0, r, killed + 1, cntr_detected, g)
  | (Escaped, r, g) => (0, r, killed, cntr_detected, g)
  end.

End Propagator.

End Trace.

(** ** The MEX gateway (mexFiles/tracingSimpleGenMex.c) and its MATLAB caller *)

Module Gateway.

Import Geometry Structs Intersect Trace.
Local Open Scope Z_scope.

(** The values the gateway hands back to MATLAB. *)
Inductive mxArray : Set :=
| mxDoubleScalar (v : Z)
| mxInt32Row (data : list Z).

(** How a call of the gateway ends: [mexErrMsgIdAndTxt] aborts it with an
    identifier and a message; an access outside an array leaves the behaviour
    undefined; otherwise it returns [plhs]. *)
Inductive MexResult : Set :=
| MexError (msgid msg : string)
| MexUndefined
| MexReturn (plhs : list mxArray).

(** The inputs read from [prhs], after [set_up_surface] and [set_up_sphere]. *)
Record Inputs : Set := mkInputs {
  in_elements : list Element;
  maxScatters : Z;
  in_make_sphere : Z;
  in_sphere_c : vec3;
  in_sphere_r : float;
  in_plate_represent : Z;
  in_circle_plate_r : float;
  in_aperture_axes : float * float;
  in_aperture_c : float * float;
  nrays : Z }.

Definition sample_index : Z := 0.
Definition plate_index : Z := 1.
Definition sphere_index : Z := 2.

Definition scene_of (i : Inputs) : Scene :=
  mkScene (mkSurface (in_elements i) sample_index)
          (mkSphere (in_make_sphere i) (in_sphere_c i) (in_sphere_r i) sphere_index)
          (mkPlate [mkAperture (in_aperture_c i) (in_aperture_axes i)]
                   (in_circle_plate_r i) (in_plate_represent i) plate_index).

(** [a[k]++] on an array of [length a] cells; [None] outside the array. *)
Fixpoint incr_nth (a : list Z) (k : nat) : list Z :=
  match a, k with
  | [], _ => []
  | x :: a', O => (x + 1) :: a'
  | x :: a', S k' => x :: incr_nth a' k'
  end.

Definition array_incr (a : list Z) (k : Z) : option (list Z) :=
  if (0 <=? k) && (k <? Z.of_nat (List.length a))
  then Some (incr_nth a (Z.to_nat k))
  else None.

Definition sum (a : list Z) : Z := fold_right Z.add 0 a.

Section TracingLoop.

Variable Rng : Type.
Variable new_direction : vec3 -> Nearest -> Rng -> vec3 * Rng.
Variable first_plate : bool.

(** The source sampler of section 4.7, giving position and direction, is a
    parameter. *)
Variable source_sampler : Rng -> vec3 * vec3 * Rng.

(** Modelled from the spec: [create_ray_source], whose C body is not among the
    sources.  The new ray is in the Initial state of section 4.6: no
    scattering event, on no surface. *)
Definition create_ray_source (rng : Rng) : Ray3D * Rng :=
  let '(pos, dir, rng') := source_sampler rng in
  (mkRay pos dir (-1) (-1) 0, rng').

(** The variables the tracing loop updates. *)
Record LoopState : Type := mkLoop {
  killed : Z;
  cntr_detected : Z;
  numScattersRay : list Z;
  my_rng : Rng }.

(** The body of "Loop through all the rays, tracing each one". *)
Definition trace_one (i : Inputs) (s : LoopState) : option LoopState :=
  let '(the_ray, g) := create_ray_source (my_rng s) in
  let '(detected, the_ray', killed', cntr', g') :=
    trace_ray_simple Rng new_direction first_plate (scene_of i)
                     the_ray (killed s) (cntr_detected s) (maxScatters i) g in
  if negb (detected =? 0) then
    match array_incr (numScattersRay s) (nScatters the_ray' - 1) with
    | Some a => Some (mkLoop killed' cntr' a g')
    | None => None
    end
  else Some (mkLoop killed' cntr' (numScattersRay s) g').

Fixpoint trace_loop (n : nat) (i : Inputs) (s : LoopState) : option LoopState :=
  match n with
  | O => Some s
  | S n' =>
      match trace_one i s with
      | Some s' => trace_loop n' i s'
      | None => None
      end
  end.

(** [mexFunction]: the two checks on the numbers of arguments, the histogram
    of [maxScatters] cells set to zero, the loop over the rays and the three
    outputs.  [rng0] is the generator that [setupGSL] returns. *)
Definition mexFunction (nlhs nrhs : Z) (i : Inputs) (rng0 : Rng) : MexResult :=
  if negb (nrhs =? 18) then
    MexError "MyToolbox:tracingMex:nrhs" "Eighteen inputs required for tracingMex."
  else if negb (nlhs =? 3) then
    MexError "MyToolbox:tracingMex:nrhs" "Six outpus required for tracingMex."
  else
    let s0 := mkLoop 0 0 (repeat 0 (Z.to_nat (maxScatters i))) rng0 in
    match trace_loop (Z.to_nat (nrays i)) i s0 with
    | Some s =>
        MexReturn [mxDoubleScalar (cntr_detected s); mxDoubleScalar (killed s);
                   mxInt32Row (numScattersRay s)]
    | None => MexUndefined
    end.

(** The fate of each ray of the loop, in order. *)
Fixpoint ray_fates (n : nat) (i : Inputs) (rng : Rng) : list Terminal :=
  match n with
  | O => []
  | S n' =>
      let '(the_ray, g) := create_ray_source rng in
      let '(t, _, g') :=
        propagate_ray Rng new_direction first_plate (scene_of i)
                      (maxScatters i) the_ray g in
      t :: ray_fates n' i g'
  end.

(** The fates of the rays of the run that [mexFunction] makes on inputs [i]. *)
Definition fates_of (i : Inputs) (rng0 : Rng) : list Terminal :=
  ray_fates (Z.to_nat (nrays i)) i rng0.

End TracingLoop.

(** traceSimpleMulti.m: "The number of rays that died naturally, rather than
    being 'killed' because they scattered too many times". *)
Definition diedNaturally (n_rays cntr killed : Z) : Z := n_rays - cntr - killed.

Definition is_detected (t : Terminal) : bool :=
  match t with Detected _ => true | _ => false end.
Definition is_killed (t : Terminal) : bool :=
  match t with Killed => true | _ => false end.
Definition is_escaped (t : Terminal) : bool :=
  match t with Escaped => true | _ => false end.

Definition count (p : Terminal -> bool) (l : list Terminal) : Z :=
  Z.of_nat (List.length (filter p l)).

End Gateway.

(** ** Statements of the specification, in its own words, and test data *)

Module SpecWords.

Import Geometry Structs Intersect Trace Gateway.
Local Open Scope float_scope.

(** "takes the smaller non-negative root, and reports miss when the
    discriminant is negative" (section 4.2), for [t^2 + beta t + gamma = 0]. *)
Definition smaller_nonneg_root (beta gamma : float) : option float :=
  let disc := beta * beta - 4 * gamma in
  if disc <? 0 then None
  else
    let t1 := (- beta - PrimFloat.sqrt disc) / 2 in
    let t2 := (- beta + PrimFloat.sqrt disc) / 2 in
    if 0 <=? t1 then Some t1
    else if 0 <=? t2 then Some t2
    else None.

(** "test each aperture's ellipse in order and record the first that contains
    the hit"; "aperture indices are 1-based (0 reserved for no detection)"
    (sections 4.5 and 3).  [i] is the index of the head of the list. *)
Fixpoint first_containing (hit : vec3) (l : list BackWall) (i : Z) : Z :=
  match l with
  | [] => 0%Z
  | plate :: l' =>
      if aperture_test hit plate <? 1 then i
      else first_containing hit l' (i + 1)%Z
  end.

(** The sentence of section 4.2 on the sphere, read on a ray that has found
    nothing yet: the test reports the smaller non-negative root as the hit
    distance, and a miss when there is none. *)
Definition sphere_sentence_as_stated : Prop :=
  forall the_ray the_sphere,
    match smaller_nonneg_root (sphere_beta the_ray the_sphere)
                              (sphere_gamma the_ray the_sphere) with
    | Some t =>
        snd (scatterSphere the_ray the_sphere no_hit) = 1%Z /\
        min_dist (fst (scatterSphere the_ray the_sphere no_hit)) = t * t
    | None => snd (scatterSphere the_ray the_sphere no_hit) = 0%Z
    end.

(** "the hit lies within the plate disc" of radius [r]. *)
Definition within_disc (hit : vec3) (wallPlate : NBackWall) : bool :=
  c0 hit * c0 hit + c2 hit * c2 hit <=? circle_plate_r wallPlate * circle_plate_r wallPlate.

(** The 1-based index of the first aperture of the plate that contains the
    point where the ray meets the plane, 0 when none does. *)
Definition first_aperture (the_ray : Ray3D) (wallPlate : NBackWall) : Z :=
  first_containing (wall_point the_ray) (apertures wallPlate) 1%Z.

(** "the hit lies within the plate disc and plate_represent is true". *)
Definition plate_scatters (the_ray : Ray3D) (wallPlate : NBackWall) : bool :=
  within_disc (wall_point the_ray) wallPlate && negb (plate_represent wallPlate =? 0)%Z.

(** The sentence of section 4.5 on the back wall, read without a condition on
    the current minimum: a ray travelling upwards is reported in the first
    aperture that contains the point where it meets the plane. *)
Definition back_wall_sentence_as_stated : Prop :=
  forall the_ray wallPlate st,
    (0 <? c1 (direction the_ray)) = true ->
    snd (multiBackWall the_ray wallPlate st) = first_aperture the_ray wallPlate.

End SpecWords.

Module TestData.

Import Geometry Structs Intersect Trace Gateway.
Local Open Scope float_scope.

(** A unit sphere, a ray starting at its centre, and a sphere ahead of it. *)
Definition unit_sphere : AnalytSphere := mkSphere 1 (Vec3 0 0 0) 1 2.
Definition sphere_ahead : AnalytSphere := mkSphere 1 (Vec3 0 3 0) 1 2.
Definition ray_up_from_origin : Ray3D := mkRay (Vec3 0 0 0) (Vec3 0 1 0) (-1) (-1) 0.

(** A triangle in the plane [y = 2], facing down. *)
Definition tri_above : Element :=
  mkElement (Vec3 (-1) 2 (-1)) (Vec3 1 2 (-1)) (Vec3 0 2 1) (Vec3 0 (-1) 0).
Definition surf_above : Surface3D := mkSurface [tri_above] 0.

(** A plate of radius 10 with two apertures, the second one at the origin. *)
Definition two_apertures : NBackWall :=
  mkPlate [mkAperture (5, 0) (1, 1); mkAperture (0, 0) (1.4, 1)] 10 1 1.
(** The same plate with no aperture. *)
Definition bare_plate : NBackWall := mkPlate [] 10 1 1.

(** A ray below the plate and one above it, both travelling upwards. *)
Definition ray_below : Ray3D := mkRay (Vec3 0 (-1) 0) (Vec3 0 1 0) (-1) (-1) 0.
Definition ray_above : Ray3D := mkRay (Vec3 0 1 0) (Vec3 0 1 0) (-1) (-1) 0.
(** A nearer intersection already found, at squared distance 0.25. *)
Definition nearer_hit : Nearest := mkNearest 0.25 (Vec3 0 (-0.5) 0) (Vec3 0 1 0) 0 0.

(** A flat sample in the plane [y = -2], facing the plate, and the inputs of a
    run over it: one aperture of full axes (1, 1) at the origin, plate radius
    10, no sphere. *)
Definition flat_sample : list Element :=
  [mkElement (Vec3 (-10) (-2) (-10)) (Vec3 0 (-2) 10) (Vec3 10 (-2) (-10)) (Vec3 0 1 0)].

(** A ray above the flat sample heading into it, marked as sitting on facet 0
    of the sample, and the same ray not marked so. *)
Definition ray_on_facet : Ray3D := mkRay (Vec3 0 (-1) 0) (Vec3 0 (-1) 0) 0 0 1.
Definition ray_off_facet : Ray3D := mkRay (Vec3 0 (-1) 0) (Vec3 0 (-1) 0) (-1) (-1) 0.

(** A ray leaving the plate plane downwards, and the same ray after one
    specular scattering event on the flat sample. *)
Definition ray_down : Ray3D := mkRay (Vec3 0 0 0) (Vec3 0 (-1) 0) (-1) (-1) 0.
Definition ray_scattered_once : Ray3D := mkRay (Vec3 0 (-2) 0) (Vec3 0 1 0) 0 0 1.

Definition run_inputs (els : list Element) (maxScatter n : Z) : Inputs :=
  mkInputs els maxScatter 0 zero3 1 1 10 (1, 1) (0, 0) n.

(** Specular scattering, with a generator that is never read. *)
Definition specular {Rng : Type} (d : vec3) (h : Nearest) (rng : Rng) : vec3 * Rng :=
  (reflect d (nearest_n h), rng).

(** A source that always emits the ray below the plate, aimed at the aperture. *)
Definition aimed_at_aperture (rng : unit) : vec3 * vec3 * unit :=
  (Vec3 0 (-1) 0, Vec3 0 1 0, rng).

(** A source on the plate plane emitting downwards, its position read from a
    list; the generator is the index of the next ray. *)
Definition from_list (xs : list float) (rng : nat) : vec3 * vec3 * nat :=
  (Vec3 (nth rng xs 0) 0 0, Vec3 0 (-1) 0, S rng).

End TestData.

(** ** Hits of the triangle loop *)

Module Hits.

Import Geometry Structs Intersect.
Local Open Scope float_scope.

(** Triangle [j] is hit: the loop reaches the linear solve for it, the solve
    succeeds, and the solution lies inside the triangle, ahead of the ray.
    This is the condition under which the loop sets [meets]. *)
Definition accepted (the_ray : Ray3D) (sample : Surface3D) (j : Z) : bool :=
  considered the_ray sample j
  && snd (triag_solution the_ray sample j)
  && inside_forward (fst (triag_solution the_ray sample j)).

(** The indices the loop of [scatterTriag] runs over. *)
Definition face_index (sample : Surface3D) (j : Z) : Prop :=
  (0 <= j < n_faces sample)%Z.

End Hits.

(** ** The rays of a run of the gateway *)

Module RunDetail.

Import Geometry Structs Intersect Trace Gateway.
Local Open Scope Z_scope.

Section Results.

Variable Rng : Type.
Variable new_direction : vec3 -> Nearest -> Rng -> vec3 * Rng.
Variable first_plate : bool.
Variable source_sampler : Rng -> vec3 * vec3 * Rng.

(** The fate of each ray of the loop of [mexFunction] and the ray as
    [trace_ray_simple] leaves it, in order. *)
Fixpoint ray_results (n : nat) (i : Inputs) (rng : Rng) : list (Terminal * Ray3D) :=
  match n with
  | O => []
  | S n' =>
      let '(the_ray, g) := create_ray_source Rng source_sampler rng in
      let '(t, r, g') :=
        propagate_ray Rng new_direction first_plate (scene_of i)
                      (maxScatters i) the_ray g in
      (t, r) :: ray_results n' i g'
  end.

End Results.

(** The ray was detected after [k] scattering events. *)
Definition detected_after (k : Z) (r : Terminal * Ray3D) : bool :=
  is_detected (fst r) && (nScatters (snd r) =? k).

(** The ray was detected with a number of scattering events for which an array
    of [len] cells has no cell [nScatters - 1]. *)
Definition detected_off_histogram (len : nat) (r : Terminal * Ray3D) : bool :=
  is_detected (fst r)
  && negb ((1 <=? nScatters (snd r)) && (nScatters (snd r) <=? Z.of_nat len)).

Definition tally {A : Type} (p : A -> bool) (l : list A) : Z :=
  Z.of_nat (List.length (filter p l)).

End RunDetail.

(** ** rectangularScan.m: the pixel of a step of the parallel loop

    The loop runs [i_] from 1 to [N_pixels = nx_pixels*nz_pixels] and stores
    the result of step [i_] with [counters(:,i_)], [num_killed(i_)] and
    [effuse_counters(i_)].  The pixel counts and indices are whole numbers,
    held exactly by MATLAB's doubles; they are integers here, [mod] is
    [Z.modulo] and [floor(i_/nz_pixels)] is [Z.div]. *)

Module Scan.

Local Open Scope Z_scope.

(** "The x and z pixels we are on": the value of [z_pix] after the two
    statements that assign it, and the value of [x_pix]. *)
Definition z_pix (nz_pixels i_ : Z) : Z :=
  let z_pix := i_ mod nz_pixels - 1 in
  if z_pix =? -1 then nz_pixels - 1 else z_pix.

Definition x_pix (nz_pixels i_ : Z) : Z :=
  if i_ mod nz_pixels =? 0 then i_ / nz_pixels - 1 else i_ / nz_pixels.

(** The cell that the linear index [i_] names in an array of [nz_pixels] rows:
    row and column, counted from 1, with MATLAB's column-major rule
    [i_ = row + (column - 1)*nz_pixels]. *)
Definition linear_index (nz_pixels row column : Z) : Z :=
  row + (column - 1) * nz_pixels.

End Scan.

(** ** More test data *)

Module MoreTestData.

Import Geometry Structs Intersect Trace Gateway.
Local Open Scope float_scope.

(** Two triangles above the origin, the second one nearer. *)
Definition tri_nearer : Element :=
  mkElement (Vec3 (-1) 1 (-1)) (Vec3 1 1 (-1)) (Vec3 0 1 1) (Vec3 0 (-1) 0).
Definition two_above : Surface3D :=
  mkSurface [TestData.tri_above; tri_nearer] 0.

(** A plate that lets the rays through where it has no aperture. *)
Definition open_plate : NBackWall :=
  mkPlate [mkAperture (5, 0) (1, 1)] 10 0 1.

End MoreTestData.

(** ** traceSimpleMulti.m: the name/value arguments

    The function reads [varargin] two elements at a time, a name and the value
    that follows it.  The arguments are taken here as a list of such pairs,
    the names being char vectors; the values are MATLAB values of a type
    [Val] that the model does not look into, except for [v{k}]. *)

Module Wrapper.

Local Open Scope string_scope.

(** MATLAB's [num2str] on a positive whole number: its decimal digits. *)
Definition num2str (n : nat) : string := NilEmpty.string_of_uint (Nat.to_uint n).

(** The text [[' Input ' num2str(i_) ' not recognised.']] given to [warning]. *)
Definition not_recognised (i_ : nat) : string :=
  " Input " ++ num2str i_ ++ " not recognised.".

Section TraceSimpleMulti.

Variable Val : Type.

(** [brace v k] is [v{k}]: the [k]-th element of the cell array [v], and
    [None] where MATLAB raises an error ([v] is no cell array or has fewer
    than [k] elements). *)
Variable brace : Val -> nat -> option Val.

(** The variables that the loop over [varargin] assigns; a variable that was
    never assigned is [None].  [warnings] are the messages passed to
    [warning], in order. *)
Record Workspace : Type := mkWorkspace {
  ray_pos : option Val;
  ray_dir : option Val;
  sample_surface : option Val;
  maxScatter : option Val;
  plate : option Val;
  sphere : option Val;
  warnings : list string }.

Definition cleared : Workspace :=
  mkWorkspace None None None None None None [].

(** The [switch] on the name at position [i_], with the value at [i_ + 1];
    [None] when an error is raised. *)
Definition parse_step (i_ : nat) (name : string) (value : Val) (w : Workspace)
    : option Workspace :=
  if name =? "rays" then
    match brace value 1, brace value 2 with
    | Some p, Some d =>
        Some (mkWorkspace (Some p) (Some d) (sample_surface w) (maxScatter w)
                          (plate w) (sphere w) (warnings w))
    | _, _ => None
    end
  else if name =? "sample" then
    Some (mkWorkspace (ray_pos w) (ray_dir w) (Some value) (maxScatter w)
                      (plate w) (sphere w) (warnings w))
  else if name =? "maxScatter" then
    Some (mkWorkspace (ray_pos w) (ray_dir w) (sample_surface w) (Some value)
                      (plate w) (sphere w) (warnings w))
  else if name =? "plate" then
    Some (mkWorkspace (ray_pos w) (ray_dir w) (sample_surface w) (maxScatter w)
                      (Some value) (sphere w) (warnings w))
  else if name =? "sphere" then
    Some (mkWorkspace (ray_pos w) (ray_dir w) (sample_surface w) (maxScatter w)
                      (plate w) (Some value) (warnings w))
  else
    Some (mkWorkspace (ray_pos w) (ray_dir w) (sample_surface w) (maxScatter w)
                      (plate w) (sphere w)
                      (warnings w ++ [not_recognised i_])%list).

(** [for i_=1:2:length(varargin)], from position [i_]. *)
Fixpoint parse_args (i_ : nat) (args : list (string * Val)) (w : Workspace)
    : option Workspace :=
  match args with
  | [] => Some w
  | (name, value) :: rest =>
      match parse_step i_ name value w with
      | Some w' => parse_args (i_ + 2) rest w'
      | None => None
      end
  end.

(** The six variables of a workspace, without the warnings. *)
Definition variables (w : Workspace) : list (option Val) :=
  [ray_pos w; ray_dir w; sample_surface w; maxScatter w; plate w; sphere w].

(** The value given with the last occurrence of [name]. *)
Fixpoint last_named (name : string) (args : list (string * Val)) : option Val :=
  match args with
  | [] => None
  | (n, v) :: rest =>
      match last_named name rest with
      | Some v' => Some v'
      | None => if n =? name then Some v else None
      end
  end.

End TraceSimpleMulti.

(** The names that the [switch] has a case for. *)
Definition recognised (name : string) : bool :=
  (name =? "rays") || (name =? "sample") || (name =? "maxScatter")
  || (name =? "plate") || (name =? "sphere").

(** The positions, from [i_] in steps of 2, of the names of [args] that the
    [switch] has no case for. *)
Fixpoint unrecognised_positions {Val : Type} (i_ : nat) (args : list (string * Val))
    : list nat :=
  match args with
  | [] => []
  | (name, _) :: rest =>
      if recognised name then unrecognised_positions (i_ + 2) rest
      else i_ :: unrecognised_positions (i_ + 2) rest
  end.

End Wrapper.

(** * Properties *)

Import Geometry Structs Intersect Trace Gateway SpecWords TestData.

(** ** The order of binary64 numbers *)

Section FloatOrder.

Local Open Scope float_scope.

Lemma SFltb_trans x y z :
  SFltb x y = true -> SFltb y z = true -> SFltb x z = true.
Proof.
  unfold SFltb, SFcompare.
  destruct x as [[]|[]| |[] m1 e1], y as [[]|[]| |[] m2 e2], z as [[]|[]| |[] m3 e3];
    try discriminate; try reflexivity.
  all: destruct (Z.compare_spec e1 e2), (Z.compare_spec e2 e3), (Z.compare_spec e1 e3);
    subst; try discriminate; try reflexivity; try lia.
  all: rewrite ?Pos.compare_cont_spec; simpl;
       destruct (Pos.compare_spec m1 m2), (Pos.compare_spec m2 m3),
                (Pos.compare_spec m1 m3);
       subst; simpl; try discriminate; try reflexivity; try lia.
Qed.

Lemma ltb_trans x y z : (x <? y) = true -> (y <? z) = true -> (x <? z) = true.
Proof. rewrite !ltb_spec. apply SFltb_trans. Qed.

(** Two numbers that compare equal are not strictly ordered. *)
Lemma eqb_not_ltb x y : (x =? y) = true -> (x <? y) = false.
Proof.
  rewrite FloatAxioms.eqb_spec, ltb_spec. unfold SFeqb, SFltb.
  destruct (SFcompare (Prim2SF x) (Prim2SF y)) as [[]|]; congruence.
Qed.

Lemma ltb_irrefl x : (x <? x) = false.
Proof.
  rewrite ltb_spec. unfold SFltb, SFcompare.
  destruct (Prim2SF x) as [[]|[]| |[] m e]; try reflexivity.
  all: rewrite Z.compare_refl, Pos.compare_cont_spec, Pos.compare_refl; reflexivity.
Qed.

Lemma ltb_asym x y : (x <? y) = true -> (y <? x) = false.
Proof.
  intros H. destruct (y <? x) eqn:E; [|reflexivity].
  pose proof (ltb_trans _ _ _ H E) as K. rewrite ltb_irrefl in K. discriminate.
Qed.

End FloatOrder.

(** ** The sphere test *)

Section Sphere.

Local Open Scope float_scope.

Variable the_ray : Ray3D.
Variable the_sphere : AnalytSphere.
Variable st : Nearest.

(** In exact arithmetic the polynomial that [sphere_gamma] writes out is
    [|e - c|^2 - r^2]. *)
Remark gamma_expanded_form (r e0 e1 e2 a b c : Z) :
  (- r * r - 2 * e0 * a - 2 * e1 * b - 2 * e2 * c
   + e0 * e0 + e1 * e1 + e2 * e2 + a * a + b * b + c * c
   = (e0 - a) * (e0 - a) + (e1 - b) * (e1 - b) + (e2 - c) * (e2 - c) - r * r)%Z.
Proof. ring. Qed.

(** The branches of [scatterSphere], on the discriminant and the smaller
    root. *)
Lemma scatterSphere_branches :
  scatterSphere the_ray the_sphere st =
  if sphere_discriminant the_ray the_sphere <? 0 then (st, 0%Z)
  else if (sphere_dist the_ray the_sphere <? min_dist st)
          && (0 <? sphere_distance the_ray the_sphere)
       then (sphere_record the_ray the_sphere, 1%Z)
       else (st, 0%Z).
Proof. reflexivity. Qed.

Lemma scatterSphere_flag :
  snd (scatterSphere the_ray the_sphere st) = 0%Z \/
  snd (scatterSphere the_ray the_sphere st) = 1%Z.
Proof.
  rewrite scatterSphere_branches.
  destruct (_ <? 0); [now left|]. destruct (_ && _); [now right | now left].
Qed.

(** Each of the three causes makes the test report no hit. *)
Lemma scatterSphere_miss_causes :
  (sphere_discriminant the_ray the_sphere <? 0) = true \/
  (0 <? sphere_distance the_ray the_sphere) = false \/
  (sphere_dist the_ray the_sphere <? min_dist st) = false ->
  snd (scatterSphere the_ray the_sphere st) = 0%Z.
Proof.
  rewrite scatterSphere_branches. intros [H | [H | H]]; rewrite H.
  - reflexivity.
  - rewrite andb_false_r. now destruct (_ <? 0).
  - now destruct (_ <? 0).
Qed.

(** C9. Whenever [scatterSphere] reports no hit ([meets_sphere = 0]), one of
    the three causes holds (negative discriminant, smaller root not strictly
    positive, candidate not nearer than the current minimum), and [min_dist],
    [nearest_inter], [nearest_n], [tri_hit] and [which_surface] are left as
    they were. *)
Theorem scatterSphere_miss_frame :
  snd (scatterSphere the_ray the_sphere st) = 0%Z ->
  ((sphere_discriminant the_ray the_sphere <? 0) = true \/
   (0 <? sphere_distance the_ray the_sphere) = false \/
   (sphere_dist the_ray the_sphere <? min_dist st) = false) /\
  min_dist (fst (scatterSphere the_ray the_sphere st)) = min_dist st /\
  nearest_inter (fst (scatterSphere the_ray the_sphere st)) = nearest_inter st /\
  nearest_n (fst (scatterSphere the_ray the_sphere st)) = nearest_n st /\
  tri_hit (fst (scatterSphere the_ray the_sphere st)) = tri_hit st /\
  which_surface (fst (scatterSphere the_ray the_sphere st)) = which_surface st.
Proof.
  rewrite scatterSphere_branches.
  destruct (sphere_discriminant the_ray the_sphere <? 0) eqn:Hd; simpl.
  - intros _. repeat split. now left.
  - destruct (sphere_dist the_ray the_sphere <? min_dist st) eqn:Hm;
      destruct (0 <? sphere_distance the_ray the_sphere) eqn:Hp; simpl;
      try discriminate; intros _; repeat split; auto.
Qed.

(** C2, as the code has it.  The test reports a miss when the discriminant
    [beta^2 - 4 gamma] is negative; otherwise it takes the smaller root
    [t = (-beta - sqrt(beta^2 - 4 gamma))/2] only, and reports a hit exactly
    when [t] is strictly positive and [t^2] is below the current minimum, the
    recorded squared distance being [t^2] and the recorded point [e + t d];
    in every other case, a ray starting inside the sphere included, it reports
    a miss and changes nothing. *)
Theorem scatterSphere_smaller_root_only :
  (snd (scatterSphere the_ray the_sphere st) = 1%Z <->
     (sphere_discriminant the_ray the_sphere <? 0) = false /\
     (0 <? sphere_distance the_ray the_sphere) = true /\
     (sphere_dist the_ray the_sphere <? min_dist st) = true) /\
  (snd (scatterSphere the_ray the_sphere st) = 1%Z ->
     min_dist (fst (scatterSphere the_ray the_sphere st)) = sphere_dist the_ray the_sphere /\
     nearest_inter (fst (scatterSphere the_ray the_sphere st)) =
       Vec3 (c0 (position the_ray) + c0 (direction the_ray) * sphere_distance the_ray the_sphere)
            (c1 (position the_ray) + c1 (direction the_ray) * sphere_distance the_ray the_sphere)
            (c2 (position the_ray) + c2 (direction the_ray) * sphere_distance the_ray the_sphere) /\
     tri_hit (fst (scatterSphere the_ray the_sphere st)) = (-1)%Z /\
     which_surface (fst (scatterSphere the_ray the_sphere st)) =
       sphere_surf_index the_sphere) /\
  (snd (scatterSphere the_ray the_sphere st) <> 1%Z ->
     scatterSphere the_ray the_sphere st = (st, 0%Z)).
Proof.
  rewrite scatterSphere_branches.
  destruct (sphere_discriminant the_ray the_sphere <? 0) eqn:Hd; simpl.
  - repeat split; try discriminate; intros; intuition discriminate.
  - destruct (sphere_dist the_ray the_sphere <? min_dist st) eqn:Hm;
      destruct (0 <? sphere_distance the_ray the_sphere) eqn:Hp; simpl;
      repeat split; try discriminate; try reflexivity;
      intros; intuition (try discriminate; try congruence).
Qed.

End Sphere.

(** ** The triangle test *)

Section Triangles.

Local Open Scope float_scope.

Variable the_ray : Ray3D.
Variable sample : Surface3D.

(** The branches of the loop body. *)
Lemma scatterTriag_body_branches j (s : Nearest * Z) :
  scatterTriag_body the_ray sample j s =
  if considered the_ray sample j then
    if snd (triag_solution the_ray sample j) then
      if inside_forward (fst (triag_solution the_ray sample j)) then
        if triag_candidate_dist the_ray sample j <? min_dist (fst s)
        then (triag_record the_ray sample j, 1%Z)
        else (fst s, 1%Z)
      else s
    else s
  else s.
Proof.
  unfold scatterTriag_body, considered, triag_candidate_dist, triag_record,
    triag_solution, triag_system.
  cbv zeta.
  set (on := ((on_element the_ray =? j)%Z && (on_surface the_ray =? surf_index sample)%Z)%bool).
  set (back := 0 <? dot (el_normal (get_element3D sample j)) (direction the_ray)).
  set (hidden := (behind _ _ (el_a _) && behind _ _ (el_b _) && behind _ _ (el_c _))%bool).
  destruct on, back, hidden; cbn [negb andb]; try reflexivity.
  destruct (solve3x3 _ _ _ _) as [u ok]. cbn [fst snd].
  destruct ok; reflexivity.
Qed.

Lemma solve3x3_singular A u v eps :
  snd (solve3x3 A u v eps) = false <-> (abs (det3 A) <=? eps) = true.
Proof.
  unfold solve3x3. destruct (abs (det3 A) <=? eps); simpl; split; congruence.
Qed.

Lemma inside_forward_iff u :
  inside_forward u = true <->
  (0 <=? c0 u) = true /\ (0 <=? c1 u) = true /\
  (c0 u + c1 u <=? 1) = true /\ (0 <? c2 u) = true.
Proof. unfold inside_forward. rewrite !andb_true_iff. tauto. Qed.

(** C4. For a triangle that the loop considers, the linear solve for
    [(beta, gamma, t)] is passed over as singular exactly when [|det| <=
    epsilon], with [epsilon] the double written 0.0000000001; otherwise the
    candidate is accepted as a hit ([meets] set) exactly when [beta >= 0],
    [gamma >= 0], [beta + gamma <= 1] and [t > 0], and the nearest-hit record
    is rewritten only when moreover the squared distance of the candidate is
    below the current minimum. *)
Theorem scatterTriag_body_acceptance j (s : Nearest * Z) :
  let u := fst (triag_solution the_ray sample j) in
  let ok := snd (triag_solution the_ray sample j) in
  let accepted :=
    (0 <=? c0 u) && (0 <=? c1 u) && (c0 u + c1 u <=? 1) && (0 <? c2 u) in
  epsilon = 0.0000000001 /\
  (ok = false <-> (abs (det3 (triag_system the_ray sample j)) <=? epsilon) = true) /\
  (considered the_ray sample j = true ->
     (ok = false -> scatterTriag_body the_ray sample j s = s) /\
     (ok = true -> accepted = false -> scatterTriag_body the_ray sample j s = s) /\
     (ok = true -> accepted = true ->
        snd (scatterTriag_body the_ray sample j s) = 1%Z /\
        fst (scatterTriag_body the_ray sample j s) =
          if triag_candidate_dist the_ray sample j <? min_dist (fst s)
          then triag_record the_ray sample j else fst s)) /\
  (fst (scatterTriag_body the_ray sample j s) <> fst s ->
     considered the_ray sample j = true /\ ok = true /\ accepted = true /\
     (triag_candidate_dist the_ray sample j <? min_dist (fst s)) = true).
Proof.
  cbv zeta. fold (inside_forward (fst (triag_solution the_ray sample j))).
  rewrite scatterTriag_body_branches.
  split; [reflexivity|]. split; [apply solve3x3_singular|].
  destruct (considered the_ray sample j);
    destruct (snd (triag_solution the_ray sample j));
    destruct (inside_forward (fst (triag_solution the_ray sample j)));
    destruct (triag_candidate_dist the_ray sample j <? min_dist (fst s));
    cbn [fst snd]; repeat split; intros; try discriminate; try reflexivity;
    try congruence.
Qed.

(** One step of the loop either keeps the record or replaces it by the record
    of triangle [j], strictly nearer. *)
Lemma scatterTriag_body_step j (s : Nearest * Z) :
  fst (scatterTriag_body the_ray sample j s) = fst s \/
  (fst (scatterTriag_body the_ray sample j s) = triag_record the_ray sample j /\
   considered the_ray sample j = true /\
   (triag_candidate_dist the_ray sample j <? min_dist (fst s)) = true).
Proof.
  rewrite scatterTriag_body_branches.
  destruct (considered the_ray sample j); [|now left].
  destruct (snd _); [|now left]. destruct (inside_forward _); [|now left].
  destruct (_ <? _) eqn:H; [right|left]; auto.
Qed.

(** An invariant of the steps of [for_loop] holds of its result. *)
Lemma for_loop_invariant {S : Type} (P : S -> Prop) (body : Z -> S -> S) :
  (forall j s, P s -> P (body j s)) ->
  forall n j s, P s -> P (for_loop n j body s).
Proof.
  intros Hstep n. induction n as [|n IH]; intros j s Hs; simpl; auto.
Qed.

(** When the ray sits on facet [j] of the surface, the loop keeps the record
    it was given or writes another facet. *)
Lemma scatterTriag_own_facet_skipped j st meets :
  on_surface the_ray = surf_index sample ->
  on_element the_ray = j ->
  fst (scatterTriag the_ray sample st meets) = st \/
  tri_hit (fst (scatterTriag the_ray sample st meets)) <> j.
Proof.
  intros Hs He. unfold scatterTriag.
  apply (for_loop_invariant (fun s => fst s = st \/ tri_hit (fst s) <> j));
    [|now left].
  intros k s Hinv.
  destruct (scatterTriag_body_step k s) as [-> | (-> & Hc & _)]; [exact Hinv|].
  right. unfold triag_record. cbn [tri_hit]. intros ->.
  unfold considered in Hc. rewrite He, Hs, !Z.eqb_refl in Hc. discriminate.
Qed.

(** C6. When the ray sits on facet [j] of this surface, the test over the
    surface never writes facet [j] as the hit: the record it returns is the one
    it was given, or names another facet.  In particular a record that did not
    name [j] before the test does not name it after. *)
Theorem scatterTriag_excludes_own_facet j st meets :
  on_surface the_ray = surf_index sample ->
  on_element the_ray = j ->
  (fst (scatterTriag the_ray sample st meets) = st \/
   tri_hit (fst (scatterTriag the_ray sample st meets)) <> j) /\
  (tri_hit st <> j ->
   tri_hit (fst (scatterTriag the_ray sample st meets)) <> j).
Proof.
  intros Hs He.
  pose proof (scatterTriag_own_facet_skipped j st meets Hs He) as H.
  split; [exact H|]. intros Hne. destruct H as [-> | H]; assumption.
Qed.

End Triangles.

(** ** The back wall *)

Section BackWallPlate.

Local Open Scope float_scope.

(** The loop over the apertures finds the first aperture, in sequence order,
    whose ellipse contains the point, and leaves [test] below 1 exactly when
    there is one. *)
Lemma aperture_loop_first hit w l : forall pre test0,
  apertures w = pre ++ l ->
  (test0 <? 1) = false ->
  snd (aperture_loop (List.length l) (Z.of_nat (List.length pre)) w hit test0 0%Z) =
    first_containing hit l (Z.of_nat (List.length pre) + 1)%Z /\
  (fst (aperture_loop (List.length l) (Z.of_nat (List.length pre)) w hit test0 0%Z) <? 1) =
    negb (snd (aperture_loop (List.length l) (Z.of_nat (List.length pre)) w hit test0 0%Z) =? 0)%Z.
Proof.
  induction l as [|p l IH]; intros pre test0 Hw Ht; simpl.
  - split; [reflexivity | exact Ht].
  - assert (Hp : get_nth_aperture (Z.of_nat (List.length pre)) w = p).
    { unfold get_nth_aperture. rewrite Nat2Z.id, Hw. apply nth_middle. }
    rewrite Hp. destruct (aperture_test hit p <? 1) eqn:Hin; simpl.
    + split; [reflexivity|]. rewrite Hin. symmetry. apply negb_true_iff, Z.eqb_neq. lia.
    + specialize (IH (pre ++ [p]) (aperture_test hit p)).
      rewrite length_app in IH. simpl in IH.
      replace (Z.of_nat (List.length pre + 1)) with (Z.of_nat (List.length pre) + 1)%Z in IH by lia.
      apply IH; [|exact Hin]. rewrite <- app_assoc. exact Hw.
Qed.

Lemma first_containing_range hit l : forall i,
  (0 < i)%Z ->
  (first_containing hit l i = 0 \/
   i <= first_containing hit l i < i + Z.of_nat (List.length l))%Z.
Proof.
  induction l as [|p l IH]; intros i Hi; simpl; [now left|].
  destruct (aperture_test hit p <? 1); [right; lia|].
  destruct (IH (i + 1)%Z ltac:(lia)) as [-> | H]; [now left | right; lia].
Qed.

(** A non-zero result is the 1-based index of an aperture that contains the
    point, and no earlier aperture does; a zero result means none does. *)
Lemma first_containing_sound hit l : forall i,
  (0 < i)%Z ->
  let k := first_containing hit l i in
  (k = 0%Z -> forall p, In p l -> (aperture_test hit p <? 1) = false) /\
  (k <> 0%Z ->
   (aperture_test hit (nth (Z.to_nat (k - i)) l null_aperture) <? 1) = true /\
   forall m, (m < Z.to_nat (k - i))%nat ->
             (aperture_test hit (nth m l null_aperture) <? 1) = false).
Proof.
  induction l as [|p l IH]; intros i Hi; simpl.
  - split; [intros _ q [] | congruence].
  - destruct (aperture_test hit p <? 1) eqn:Hin.
    + split; [lia|]. intros _. rewrite Z.sub_diag. simpl. split; [exact Hin | lia].
    + destruct (IH (i + 1)%Z ltac:(lia)) as [IH0 IH1].
      destruct (first_containing_range hit l (i + 1)%Z ltac:(lia)) as [E | R].
      * rewrite E in *. split; [|congruence].
        intros _ q [<- | Hq]; [exact Hin | now apply IH0].
      * split; [lia|]. intros Hk. destruct (IH1 Hk) as [Hat Hbefore].
        replace (Z.to_nat (first_containing hit l (i + 1) - i))
          with (S (Z.to_nat (first_containing hit l (i + 1) - (i + 1)))) by lia.
        simpl. split; [exact Hat|].
        intros [|m] Hm; [exact Hin | apply Hbefore; lia].
Qed.

Variable the_ray : Ray3D.
Variable wallPlate : NBackWall.
Variable st : Nearest.

(** The branches of [multiBackWall]: the plate is passed over when [d_y > 0]
    fails or the plane is farther than the current minimum; otherwise the
    first aperture that contains the point is found, and the record is
    written when the plane is strictly nearer than the current minimum. *)
Lemma multiBackWall_branches :
  multiBackWall the_ray wallPlate st =
  if 0 <? c1 (direction the_ray) then
    if min_dist st <? wall_dist the_ray then (st, 0%Z, 0%Z)
    else if negb (first_aperture the_ray wallPlate =? 0)%Z
              && (wall_dist the_ray <? min_dist st)
    then (wall_record wallPlate (wall_alpha the_ray) (wall_point the_ray), 0%Z,
          first_aperture the_ray wallPlate)
    else if plate_scatters the_ray wallPlate then
      if wall_dist the_ray <? min_dist st
      then (wall_record wallPlate (wall_alpha the_ray) (wall_point the_ray), 1%Z, 0%Z)
      else (st, 1%Z, 0%Z)
    else (st, 0%Z, 0%Z)
  else (st, 0%Z, 0%Z).
Proof.
  unfold multiBackWall, first_aperture, plate_scatters, within_disc, wall_dist. cbv zeta.
  destruct (0 <? c1 (direction the_ray)); [|reflexivity].
  change ((0 - c1 (position the_ray)) / c1 (direction the_ray))
    with (wall_alpha the_ray).
  destruct (min_dist st <? wall_alpha the_ray * wall_alpha the_ray); [reflexivity|].
  fold (wall_point the_ray).
  destruct (aperture_loop_first (wall_point the_ray) wallPlate (apertures wallPlate)
              [] 10 eq_refl eq_refl) as [Hk Ht].
  simpl in Hk, Ht. unfold n_detect. rewrite Nat2Z.id.
  destruct (aperture_loop _ _ _ _ _ _) as [test which_aperture].
  simpl in Hk, Ht. subst which_aperture. rewrite Ht.
  destruct (negb _); [|reflexivity].
  destruct (wall_alpha the_ray * wall_alpha the_ray <? min_dist st); reflexivity.
Qed.

(** C3, as the code has it.  For a ray with [d_y > 0] whose squared distance
    [alpha^2] to the plane, [alpha = (0 - e_y)/d_y], is strictly below the
    current minimum: the point is [e + alpha d]; the apertures are tested in
    sequence order and the first whose ellipse contains the point gives the
    1-based aperture index and the recorded hit; when none contains it, the
    point lies within the plate disc and [plate_represent] is set, a plate hit
    is recorded; otherwise nothing is.  When [alpha^2] is above the current
    minimum, or [d_y > 0] fails, the test reports no hit and aperture 0 and
    leaves the record as it was. *)
Theorem multiBackWall_nearest_candidate :
  ((0 <? c1 (direction the_ray)) = false ->
     multiBackWall the_ray wallPlate st = (st, 0%Z, 0%Z)) /\
  ((0 <? c1 (direction the_ray)) = true ->
     (min_dist st <? wall_dist the_ray) = true ->
     multiBackWall the_ray wallPlate st = (st, 0%Z, 0%Z)) /\
  ((0 <? c1 (direction the_ray)) = true ->
     (wall_dist the_ray <? min_dist st) = true ->
     wall_point the_ray =
       propagate (position the_ray) (direction the_ray)
                 ((0 - c1 (position the_ray)) / c1 (direction the_ray)) /\
     (0 <= first_aperture the_ray wallPlate <= n_detect wallPlate)%Z /\
     multiBackWall the_ray wallPlate st =
       if negb (first_aperture the_ray wallPlate =? 0)%Z
       then (wall_record wallPlate (wall_alpha the_ray) (wall_point the_ray), 0%Z,
             first_aperture the_ray wallPlate)
       else if plate_scatters the_ray wallPlate
            then (wall_record wallPlate (wall_alpha the_ray) (wall_point the_ray),
                  1%Z, 0%Z)
            else (st, 0%Z, 0%Z)).
Proof.
  rewrite multiBackWall_branches. split; [|split].
  - intros ->. reflexivity.
  - intros -> ->. reflexivity.
  - intros Hup Hnear. split; [reflexivity|]. split.
    + pose proof (first_containing_range (wall_point the_ray) (apertures wallPlate) 1%Z)
        as R.
      unfold first_aperture, n_detect. lia.
    + rewrite Hup, (ltb_asym _ _ Hnear), Hnear, andb_true_r. reflexivity.
Qed.

(** The back wall keeps the record or replaces it by its own, strictly
    nearer. *)
Lemma multiBackWall_step :
  fst (fst (multiBackWall the_ray wallPlate st)) = st \/
  (fst (fst (multiBackWall the_ray wallPlate st)) =
     wall_record wallPlate (wall_alpha the_ray) (wall_point the_ray) /\
   (wall_dist the_ray <? min_dist st) = true).
Proof.
  rewrite multiBackWall_branches.
  destruct (0 <? c1 (direction the_ray)); [|now left].
  destruct (min_dist st <? wall_dist the_ray); [now left|].
  destruct (wall_dist the_ray <? min_dist st) eqn:H;
    destruct (negb (first_aperture the_ray wallPlate =? 0)%Z);
    destruct (plate_scatters the_ray wallPlate);
    cbn [fst andb]; auto.
Qed.

End BackWallPlate.

(** ** The nearest intersection over the ordered candidates *)

Section NearestCandidate.

Local Open Scope float_scope.

Lemma kept_or_nearer_refl st : kept_or_nearer st st.
Proof. now left. Qed.

Lemma kept_or_nearer_trans st1 st2 st3 :
  kept_or_nearer st1 st2 -> kept_or_nearer st2 st3 -> kept_or_nearer st1 st3.
Proof.
  intros [-> | H12] [-> | H23]; try (now left); try (now right).
  right. exact (ltb_trans _ _ _ H23 H12).
Qed.

Lemma scatterTriag_kept_or_nearer the_ray sample st meets :
  kept_or_nearer st (fst (scatterTriag the_ray sample st meets)).
Proof.
  unfold scatterTriag.
  apply (for_loop_invariant (fun s => kept_or_nearer st (fst s)));
    [|apply kept_or_nearer_refl].
  intros j s Hs. apply (kept_or_nearer_trans _ _ _ Hs).
  destruct (scatterTriag_body_step the_ray sample j s) as [-> | (-> & _ & H)];
    [now left | right; exact H].
Qed.

Lemma scatterSphere_kept_or_nearer the_ray the_sphere st :
  kept_or_nearer st (fst (scatterSphere the_ray the_sphere st)).
Proof.
  rewrite scatterSphere_branches.
  destruct (_ <? 0); [now left|].
  destruct (_ <? min_dist st) eqn:H; destruct (0 <? _); simpl;
    try (now left). right. exact H.
Qed.

Lemma multiBackWall_kept_or_nearer the_ray wallPlate st :
  kept_or_nearer st (fst (fst (multiBackWall the_ray wallPlate st))).
Proof.
  destruct (multiBackWall_step the_ray wallPlate st) as [-> | [-> H]];
    [now left | right; exact H].
Qed.

Lemma candidates_kept_or_nearer with_plate sc the_ray st :
  kept_or_nearer st (fst (fst (fst (fst (candidates with_plate sc the_ray st))))).
Proof.
  unfold candidates.
  pose proof (scatterTriag_kept_or_nearer the_ray (Sample sc) st 0%Z) as H1.
  destruct (scatterTriag the_ray (Sample sc) st 0%Z) as [st1 meets].
  cbn [fst] in H1.
  assert (H2 : kept_or_nearer st1
                 (fst (if (make_sphere (the_sphere sc) =? 0)%Z then (st1, 0%Z)
                       else scatterSphere the_ray (the_sphere sc) st1))).
  { destruct (_ =? _)%Z; [apply kept_or_nearer_refl|].
    apply scatterSphere_kept_or_nearer. }
  destruct (if (make_sphere (the_sphere sc) =? 0)%Z then _ else _) as [st2 ms].
  cbn [fst] in H2.
  assert (H3 : kept_or_nearer st2
                 (fst (fst (if with_plate then multiBackWall the_ray (Plate sc) st2
                            else (st2, 0%Z, 0%Z))))).
  { destruct with_plate; [|apply kept_or_nearer_refl].
    apply multiBackWall_kept_or_nearer. }
  destruct (if with_plate then _ else _) as [[st3 mp] wa]. cbn [fst] in *.
  eapply kept_or_nearer_trans; [|exact H3].
  eapply kept_or_nearer_trans; eassumption.
Qed.

(** On the flight step that follows a scattering event on facet [j] of the
    sample, the record of the nearest intersection does not name facet [j]:
    the triangle test leaves it out, and the sphere and the plate write -1. *)
Lemma candidates_exclude_own_facet with_plate sc the_ray j :
  on_surface the_ray = surf_index (Sample sc) ->
  on_element the_ray = j ->
  j <> (-1)%Z ->
  tri_hit (fst (fst (fst (fst (candidates with_plate sc the_ray no_hit))))) <> j.
Proof.
  intros Hs He Hj. unfold candidates.
  assert (H1 : tri_hit (fst (scatterTriag the_ray (Sample sc) no_hit 0%Z)) <> j).
  { destruct (scatterTriag_own_facet_skipped the_ray (Sample sc) j no_hit 0%Z Hs He)
      as [-> | H]; [cbn; congruence | exact H]. }
  destruct (scatterTriag the_ray (Sample sc) no_hit 0%Z) as [st1 meets].
  cbn [fst] in H1.
  assert (H2 : tri_hit (fst (if (make_sphere (the_sphere sc) =? 0)%Z then (st1, 0%Z)
                             else scatterSphere the_ray (the_sphere sc) st1)) <> j).
  { destruct (_ =? _)%Z; [exact H1|]. rewrite scatterSphere_branches.
    destruct (_ <? 0); [exact H1|]. destruct (_ && _); [cbn; congruence | exact H1]. }
  destruct (if (make_sphere (the_sphere sc) =? 0)%Z then _ else _) as [st2 ms].
  cbn [fst] in H2.
  destruct with_plate; [|exact H2].
  destruct (multiBackWall_step the_ray (Plate sc) st2) as [E | [E _]].
  - destruct (multiBackWall _ _ _) as [[st3 mp] wa]. cbn [fst] in *. congruence.
  - destruct (multiBackWall _ _ _) as [[st3 mp] wa]. cbn [fst] in *.
    rewrite E. cbn. congruence.
Qed.

(** C5. Each of the three tests, and their evaluation in the order sample
    triangles, sphere, plate, leaves the nearest-hit record ([min_dist],
    intersection point, normal, triangle index, surface id) as it was or
    replaces it by one of strictly smaller squared distance; a candidate whose
    squared distance ties with the current minimum does not replace the
    record, so the earlier candidate is retained. *)
Theorem nearest_replaced_only_when_strictly_nearer
    the_ray sample the_sphere wallPlate st meets :
  kept_or_nearer st (fst (scatterTriag the_ray sample st meets)) /\
  kept_or_nearer st (fst (scatterSphere the_ray the_sphere st)) /\
  kept_or_nearer st (fst (fst (multiBackWall the_ray wallPlate st))) /\
  (forall with_plate sc,
     kept_or_nearer st (fst (fst (fst (fst (candidates with_plate sc the_ray st)))))) /\
  (forall j,
     (triag_candidate_dist the_ray sample j =? min_dist st) = true ->
     fst (scatterTriag_body the_ray sample j (st, meets)) = st) /\
  ((sphere_dist the_ray the_sphere =? min_dist st) = true ->
   fst (scatterSphere the_ray the_sphere st) = st) /\
  ((wall_dist the_ray =? min_dist st) = true ->
   fst (fst (multiBackWall the_ray wallPlate st)) = st).
Proof.
  split; [apply scatterTriag_kept_or_nearer|].
  split; [apply scatterSphere_kept_or_nearer|].
  split; [apply multiBackWall_kept_or_nearer|].
  split; [intros; apply candidates_kept_or_nearer|].
  split; [|split].
  - intros j Htie. apply eqb_not_ltb in Htie.
    destruct (scatterTriag_body_step the_ray sample j (st, meets))
      as [H | (_ & _ & H)]; [exact H|].
    cbn [fst] in H. congruence.
  - intros Htie. apply eqb_not_ltb in Htie.
    rewrite scatterSphere_branches. rewrite Htie.
    destruct (_ <? 0); reflexivity.
  - intros Htie. apply eqb_not_ltb in Htie.
    destruct (multiBackWall_step the_ray wallPlate st) as [H | [_ H]]; [exact H|].
    congruence.
Qed.

(** C10. The back wall asks nothing of the sign of [alpha = (0 - e_y)/d_y]:
    there is a ray above the plate ([e_y > 0]) travelling upwards ([d_y > 0]),
    so with [alpha < 0], whose point on the plane, behind its origin, is
    recorded as a detection in an aperture; and with a plate that carries no
    aperture the same ray is recorded as a hit of the plate. *)
Theorem multiBackWall_records_hit_behind_origin :
  exists the_ray st,
    (0 <? c1 (direction the_ray)) = true /\
    (0 <? c1 (position the_ray)) = true /\
    (wall_alpha the_ray <? 0) = true /\
    (wall_dist the_ray <? min_dist st) = true /\
    multiBackWall the_ray two_apertures st =
      (wall_record two_apertures (wall_alpha the_ray) (wall_point the_ray), 0%Z, 2%Z) /\
    multiBackWall the_ray bare_plate st =
      (wall_record bare_plate (wall_alpha the_ray) (wall_point the_ray), 1%Z, 0%Z).
Proof.
  exists ray_above, no_hit. repeat split; vm_compute; reflexivity.
Qed.

End NearestCandidate.

(** ** The ray propagator *)

Section PropagatorProps.

Local Open Scope Z_scope.

Variable Rng : Type.
Variable new_direction : vec3 -> Nearest -> Rng -> vec3 * Rng.
Variable first_plate : bool.
Variable sc : Scene.

Lemma scatter_nScatters the_ray h rng :
  nScatters (fst (scatter Rng new_direction the_ray h rng)) = nScatters the_ray + 1.
Proof. unfold scatter. destruct (new_direction _ _ _). reflexivity. Qed.

(** The scatter budget bounds the flights: with more fuel than scattering
    events left, [flight] reaches a terminal state. *)
Lemma flight_terminates maxScatter : forall fuel with_plate the_ray rng,
  (Z.to_nat (maxScatter - nScatters the_ray) < fuel)%nat ->
  exists r, flight Rng new_direction sc fuel with_plate maxScatter the_ray rng = Some r.
Proof.
  induction fuel as [|fuel IH]; intros with_plate the_ray rng Hfuel; [lia|].
  simpl. destruct (nearest_hit with_plate sc the_ray); eauto.
  pose proof (scatter_nScatters the_ray h rng) as Hn.
  destruct (scatter Rng new_direction the_ray h rng) as [the_ray' rng'].
  cbn [fst] in Hn.
  destruct (maxScatter <=? nScatters the_ray') eqn:Hmax; eauto.
  apply IH. apply Z.leb_gt in Hmax. lia.
Qed.

Lemma propagate_ray_flight maxScatter the_ray rng :
  flight Rng new_direction sc (enough_fuel maxScatter the_ray) first_plate
         maxScatter the_ray rng =
  Some (propagate_ray Rng new_direction first_plate sc maxScatter the_ray rng).
Proof.
  unfold propagate_ray.
  destruct (flight_terminates maxScatter (enough_fuel maxScatter the_ray)
              first_plate the_ray rng) as [r Hr]; [unfold enough_fuel; lia|].
  rewrite Hr. reflexivity.
Qed.

(** A detected ray entered an aperture on the flight that [flight] started
    with, or has scattered since and is within the budget. *)
Lemma flight_detected maxScatter : forall fuel with_plate the_ray rng k r g,
  flight Rng new_direction sc fuel with_plate maxScatter the_ray rng =
    Some (Detected k, r, g) ->
  (r = the_ray /\ exists h, nearest_hit with_plate sc the_ray = Aperture k h) \/
  nScatters the_ray < nScatters r < maxScatter.
Proof.
  induction fuel as [|fuel IH]; intros with_plate the_ray rng k r g; simpl;
    [discriminate|].
  destruct (nearest_hit with_plate sc the_ray) as [|k' h|h] eqn:Hhit.
  - discriminate.
  - intros [= <- <- <-]. left. eauto.
  - pose proof (scatter_nScatters the_ray h rng) as Hn.
    destruct (scatter Rng new_direction the_ray h rng) as [the_ray' rng'].
    cbn [fst] in Hn.
    destruct (maxScatter <=? nScatters the_ray') eqn:Hmax; [discriminate|].
    apply Z.leb_gt in Hmax. intros Hfl. right.
    destruct (IH _ _ _ _ _ _ Hfl) as [[-> _] | H]; lia.
Qed.

(** Without the plate no aperture is reported. *)
Lemma nearest_hit_without_plate the_ray k h :
  nearest_hit false sc the_ray <> Aperture k h.
Proof.
  unfold nearest_hit, candidates.
  destruct (scatterTriag _ _ _ _) as [st1 meets].
  destruct (if (make_sphere (the_sphere sc) =? 0) then _ else _) as [st2 ms].
  cbn beta iota. change (negb (0 =? 0)) with false. cbn iota.
  destruct (negb (meets =? 0) || negb (ms =? 0) || false); discriminate.
Qed.

(** The two ways in which the state machine detects a ray.  A ray that starts
    with no scattering event and is detected either entered an aperture on its
    initial flight, the plate taking part in the first test, and then has
    [nScatters = 0]; or it has [nScatters] in [[1, maxScatter - 1]], and then
    the increment of [numScattersRay[nScatters - 1]] falls within an array of
    [maxScatter] cells. *)
Lemma detected_scatter_count maxScatter the_ray rng k r g :
  nScatters the_ray = 0 ->
  propagate_ray Rng new_direction first_plate sc maxScatter the_ray rng =
    (Detected k, r, g) ->
  (nScatters r = 0 /\ first_plate = true /\
   exists h, nearest_hit true sc the_ray = Aperture k h) \/
  (1 <= nScatters r <= maxScatter - 1 /\
   forall a, List.length a = Z.to_nat maxScatter ->
             exists a', array_incr a (nScatters r - 1) = Some a').
Proof.
  intros H0 Hrun.
  pose proof (propagate_ray_flight maxScatter the_ray rng) as Hfl.
  rewrite Hrun in Hfl.
  destruct (flight_detected _ _ _ _ _ _ _ _ Hfl) as [[-> [h Hh]] | Hn].
  - left. split; [exact H0|].
    destruct first_plate; [eauto|].
    exfalso. exact (nearest_hit_without_plate _ _ _ Hh).
  - right. split; [lia|]. intros a Ha. unfold array_incr.
    assert (Hin : (0 <=? nScatters r - 1) && (nScatters r - 1 <? Z.of_nat (List.length a))
                  = true).
    { apply andb_true_iff. split; [apply Z.leb_le | apply Z.ltb_lt]; lia. }
    rewrite Hin. eauto.
Qed.

End PropagatorProps.

(** ** The gateway *)

Section GatewayProps.

Local Open Scope Z_scope.

Variable Rng : Type.
Variable new_direction : vec3 -> Nearest -> Rng -> vec3 * Rng.
Variable first_plate : bool.
Variable source_sampler : Rng -> vec3 * vec3 * Rng.

Lemma sum_incr_nth : forall a k,
  (k < List.length a)%nat -> sum (incr_nth a k) = sum a + 1.
Proof.
  induction a as [|x a IH]; intros [|k] Hk; simpl in *; try lia.
  rewrite IH by lia. lia.
Qed.

Lemma array_incr_sum a k a' :
  array_incr a k = Some a' -> sum a' = sum a + 1.
Proof.
  unfold array_incr.
  destruct ((0 <=? k) && (k <? Z.of_nat (List.length a))) eqn:Hin; [|discriminate].
  apply andb_true_iff in Hin. destruct Hin as [H0 H1].
  apply Z.leb_le in H0. apply Z.ltb_lt in H1.
  intros [= <-]. apply sum_incr_nth. lia.
Qed.

Lemma count_cons p t l :
  count p (t :: l) = (if p t then 1 else 0) + count p l.
Proof.
  unfold count. cbn [filter]. destruct (p t); cbn [List.length]; lia.
Qed.

(** Every ray has exactly one fate. *)
Lemma fates_partition l :
  count is_detected l + count is_killed l + count is_escaped l =
  Z.of_nat (List.length l).
Proof.
  induction l as [|t l IH]; [reflexivity|].
  rewrite !count_cons.
  destruct t; cbn [List.length is_detected is_killed is_escaped]; lia.
Qed.

Lemma ray_fates_length i : forall n rng, 
  List.length (ray_fates Rng new_direction first_plate source_sampler n i rng) = n.
Proof.
  induction n as [|n IH]; intros rng; simpl; [reflexivity|].
  destruct (create_ray_source Rng source_sampler rng) as [the_ray g].
  destruct (propagate_ray _ _ _ _ _ _ _) as [[t r] g']. simpl. now rewrite IH.
Qed.

(** What the loop adds to the counters and to the histogram, when every
    increment falls within the array. *)
Lemma trace_loop_counts i : forall n s s',
  trace_loop Rng new_direction first_plate source_sampler n i s = Some s' ->
  cntr_detected Rng s' =
    cntr_detected Rng s +
    count is_detected
      (ray_fates Rng new_direction first_plate source_sampler n i (my_rng Rng s)) /\
  killed Rng s' =
    killed Rng s +
    count is_killed
      (ray_fates Rng new_direction first_plate source_sampler n i (my_rng Rng s)) /\
  sum (numScattersRay Rng s') =
    sum (numScattersRay Rng s) +
    count is_detected
      (ray_fates Rng new_direction first_plate source_sampler n i (my_rng Rng s)).
Proof.
  induction n as [|n IH]; intros s s'; simpl.
  - intros [= <-]. unfold count. simpl. lia.
  - unfold trace_one, trace_ray_simple.
    destruct (create_ray_source Rng source_sampler (my_rng Rng s)) as [the_ray g].
    destruct (propagate_ray _ _ _ _ _ _ _) as [[t r] g'].
    rewrite !count_cons.
    destruct t; cbn [is_detected is_killed negb Z.eqb].
    + destruct (array_incr _ _) as [a|] eqn:Ha; [|discriminate].
      apply array_incr_sum in Ha. intros Hloop.
      destruct (IH _ _ Hloop) as (Hc & Hk & Hs).
      cbn [cntr_detected killed numScattersRay my_rng] in Hc, Hk, Hs. lia.
    + intros Hloop. destruct (IH _ _ Hloop) as (Hc & Hk & Hs).
      cbn [cntr_detected killed numScattersRay my_rng] in Hc, Hk, Hs. lia.
    + intros Hloop. destruct (IH _ _ Hloop) as (Hc & Hk & Hs).
      cbn [cntr_detected killed numScattersRay my_rng] in Hc, Hk, Hs. lia.
Qed.

Lemma sum_repeat_zero n : sum (repeat 0 n) = 0.
Proof. induction n as [|n IH]; simpl; lia. Qed.

(** C7. For every run over [N = nrays] rays, each ray is detected, killed or
    escaped, and the three numbers add up to [N]; when the run returns its
    outputs, the counter of detected rays and the counter of killed rays are
    those numbers, the number of escaped rays is the one traceSimpleMulti
    derives as [N - cntr - killed], and the detected count is the sum of the
    entries of the histogram. *)
Theorem run_conserves_rays nlhs nrhs i rng0 :
  0 <= nrays i ->
  count is_detected (fates_of Rng new_direction first_plate source_sampler i rng0) +
  count is_killed (fates_of Rng new_direction first_plate source_sampler i rng0) +
  count is_escaped (fates_of Rng new_direction first_plate source_sampler i rng0) = nrays i /\
  forall cntr killed hist,
    mexFunction Rng new_direction first_plate source_sampler nlhs nrhs i rng0 =
      MexReturn [mxDoubleScalar cntr; mxDoubleScalar killed; mxInt32Row hist] ->
    cntr = count is_detected (fates_of Rng new_direction first_plate source_sampler i rng0) /\
    killed = count is_killed (fates_of Rng new_direction first_plate source_sampler i rng0) /\
    diedNaturally (nrays i) cntr killed =
      count is_escaped (fates_of Rng new_direction first_plate source_sampler i rng0) /\
    cntr + killed + diedNaturally (nrays i) cntr killed = nrays i /\
    cntr = sum hist.
Proof.
  intros HN.
  pose proof (fates_partition (fates_of Rng new_direction first_plate source_sampler i rng0)) as Hp.
  unfold fates_of in *. rewrite ray_fates_length in Hp. split; [lia|].
  intros cntr killed hist. unfold mexFunction.
  destruct (negb (nrhs =? 18)); [discriminate|].
  destruct (negb (nlhs =? 3)); [discriminate|].
  destruct (trace_loop _ _ _ _ _ _ _) as [s|] eqn:Hloop; [|discriminate].
  intros [= <- <- <-].
  destruct (trace_loop_counts _ _ _ _ Hloop) as (Hc & Hk & Hs).
  cbn [cntr_detected killed numScattersRay my_rng] in Hc, Hk, Hs.
  rewrite sum_repeat_zero in Hs. unfold diedNaturally. lia.
Qed.

(** C8. The gateway aborts with a diagnostic, and hands back nothing, when the
    number of inputs is not 18, and when the number of requested outputs is
    not 3, the number it returns; the message of the second check says six.
    The checks come before the tracing: a call that returns its outputs, or
    runs into the tracing loop at all, passed both. *)
Theorem mexFunction_checks_argument_counts nlhs nrhs i rng0 :
  (nrhs <> 18 ->
   mexFunction Rng new_direction first_plate source_sampler nlhs nrhs i rng0 =
     MexError "MyToolbox:tracingMex:nrhs" "Eighteen inputs required for tracingMex.") /\
  (nrhs = 18 -> nlhs <> 3 ->
   mexFunction Rng new_direction first_plate source_sampler nlhs nrhs i rng0 =
     MexError "MyToolbox:tracingMex:nrhs" "Six outpus required for tracingMex.") /\
  (forall plhs,
     mexFunction Rng new_direction first_plate source_sampler nlhs nrhs i rng0 =
       MexReturn plhs ->
     nrhs = 18 /\ nlhs = 3 /\ Z.of_nat (List.length plhs) = nlhs) /\
  (mexFunction Rng new_direction first_plate source_sampler nlhs nrhs i rng0 =
     MexUndefined ->
   nrhs = 18 /\ nlhs = 3).
Proof.
  unfold mexFunction.
  destruct (Z.eqb_spec nrhs 18) as [-> | Hr]; cbn [negb].
  - destruct (Z.eqb_spec nlhs 3) as [-> | Hl]; cbn [negb].
    + split; [congruence|]. split; [congruence|]. split; [|auto].
      intros plhs. destruct (trace_loop _ _ _ _ _ _ _); [|discriminate].
      intros [= <-]. auto.
    + split; [congruence|]. split; [reflexivity|]. split; [|discriminate].
      intros plhs. discriminate.
  - split; [reflexivity|]. split; [congruence|]. split; [|discriminate].
    intros plhs. discriminate.
Qed.

End GatewayProps.

(** ** The statements on concrete rays *)

Section Instances.

Local Open Scope float_scope.

(** The smaller root is the only one tried: from the centre of the unit sphere
    the quadratic [t^2 - 1 = 0] has the non-negative root 1, and the test
    reports a miss. *)
Lemma sphere_sentence_fails_inside : ~ sphere_sentence_as_stated.
Proof.
  intros H. specialize (H ray_up_from_origin unit_sphere).
  vm_compute in H. destruct H as [H _]. discriminate H.
Qed.

Example sphere_inside_values :
  sphere_beta ray_up_from_origin unit_sphere = 0 /\
  sphere_gamma ray_up_from_origin unit_sphere = -1 /\
  sphere_distance ray_up_from_origin unit_sphere = -1 /\
  smaller_nonneg_root 0 (-1) = Some 1 /\
  scatterSphere ray_up_from_origin unit_sphere no_hit = (no_hit, 0%Z).
Proof. repeat split; vm_compute; reflexivity. Qed.

Lemma scatterSphere_smaller_root_only_witness :
  snd (scatterSphere ray_up_from_origin sphere_ahead no_hit) = 1%Z /\
  min_dist (fst (scatterSphere ray_up_from_origin sphere_ahead no_hit)) = 4 /\
  nearest_inter (fst (scatterSphere ray_up_from_origin sphere_ahead no_hit)) = Vec3 0 2 0.
Proof.
  destruct (scatterSphere_smaller_root_only ray_up_from_origin sphere_ahead no_hit)
    as (_ & H & _).
  split; [reflexivity|].
  destruct (H eq_refl) as (Hd & Hi & _).
  split; [exact Hd | exact Hi].
Defined.

Lemma scatterSphere_miss_frame_witness :
  snd (scatterSphere ray_up_from_origin unit_sphere nearer_hit) = 0%Z /\
  min_dist (fst (scatterSphere ray_up_from_origin unit_sphere nearer_hit)) = 0.25 /\
  tri_hit (fst (scatterSphere ray_up_from_origin unit_sphere nearer_hit)) = 0%Z /\
  which_surface (fst (scatterSphere ray_up_from_origin unit_sphere nearer_hit)) = 0%Z.
Proof.
  split; [reflexivity|].
  destruct (scatterSphere_miss_frame ray_up_from_origin unit_sphere nearer_hit eq_refl)
    as (_ & Hd & _ & _ & Ht & Hs).
  split; [exact Hd|]. split; [exact Ht | exact Hs].
Defined.

(** A nearer intersection shadows the aperture: the point on the plane lies in
    the second aperture, and aperture 0 is reported. *)
Lemma back_wall_sentence_fails_behind_nearer_hit : ~ back_wall_sentence_as_stated.
Proof.
  intros H. specialize (H ray_below two_apertures nearer_hit eq_refl).
  vm_compute in H. discriminate H.
Qed.

Example back_wall_shadowed_values :
  wall_point ray_below = Vec3 0 0 0 /\
  first_aperture ray_below two_apertures = 2%Z /\
  multiBackWall ray_below two_apertures nearer_hit = (nearer_hit, 0%Z, 0%Z).
Proof. repeat split; vm_compute; reflexivity. Qed.

Lemma multiBackWall_nearest_candidate_witness :
  (0 <? c1 (direction ray_below)) = true /\
  (wall_dist ray_below <? min_dist no_hit) = true /\
  multiBackWall ray_below two_apertures no_hit =
    (wall_record two_apertures 1 (Vec3 0 0 0), 0%Z, 2%Z).
Proof.
  split; [reflexivity|]. split; [reflexivity|].
  destruct (multiBackWall_nearest_candidate ray_below two_apertures no_hit)
    as (_ & _ & H).
  destruct (H eq_refl eq_refl) as (_ & _ & E). exact E.
Defined.

(** The triangle above the origin is hit, two units up. *)
Lemma scatterTriag_body_acceptance_witness :
  considered ray_up_from_origin surf_above 0 = true /\
  snd (triag_solution ray_up_from_origin surf_above 0) = true /\
  inside_forward (fst (triag_solution ray_up_from_origin surf_above 0)) = true /\
  snd (scatterTriag_body ray_up_from_origin surf_above 0 (no_hit, 0%Z)) = 1%Z /\
  fst (scatterTriag_body ray_up_from_origin surf_above 0 (no_hit, 0%Z)) =
    mkNearest 4 (Vec3 0 2 0) (Vec3 0 (-1) 0) 0 0.
Proof.
  destruct (scatterTriag_body_acceptance ray_up_from_origin surf_above 0 (no_hit, 0%Z))
    as (_ & _ & H & _).
  destruct (H eq_refl) as (_ & _ & Hacc).
  destruct (Hacc eq_refl eq_refl) as [Hm Hr].
  split; [reflexivity|]. split; [reflexivity|]. split; [reflexivity|].
  split; [exact Hm | exact Hr].
Defined.

Lemma scatterTriag_excludes_own_facet_witness :
  on_surface ray_on_facet = surf_index (mkSurface flat_sample 0) /\
  on_element ray_on_facet = 0%Z /\
  tri_hit no_hit <> 0%Z /\
  tri_hit (fst (scatterTriag ray_on_facet (mkSurface flat_sample 0) no_hit 0)) <> 0%Z.
Proof.
  split; [reflexivity|]. split; [reflexivity|].
  assert (H : tri_hit no_hit <> 0%Z) by (vm_compute; discriminate).
  split; [exact H|].
  exact (proj2 (scatterTriag_excludes_own_facet ray_on_facet (mkSurface flat_sample 0)
                  0%Z no_hit 0%Z eq_refl eq_refl) H).
Defined.

(** The same ray, not marked as sitting on the facet, hits it. *)
Example facet_hit_when_not_excluded :
  tri_hit (fst (scatterTriag ray_off_facet (mkSurface flat_sample 0) no_hit 0)) = 0%Z /\
  fst (scatterTriag ray_on_facet (mkSurface flat_sample 0) no_hit 0) = no_hit.
Proof. split; vm_compute; reflexivity. Qed.

(** The triangle and the sphere ahead are both at squared distance 4: the
    triangle, evaluated first, is retained. *)
Lemma nearest_replaced_only_when_strictly_nearer_witness :
  min_dist (fst (scatterTriag ray_up_from_origin surf_above no_hit 0)) = 4 /\
  (sphere_dist ray_up_from_origin sphere_ahead =? 4) = true /\
  fst (scatterSphere ray_up_from_origin sphere_ahead
         (fst (scatterTriag ray_up_from_origin surf_above no_hit 0))) =
    mkNearest 4 (Vec3 0 2 0) (Vec3 0 (-1) 0) 0 0.
Proof.
  split; [reflexivity|]. split; [reflexivity|].
  destruct (nearest_replaced_only_when_strictly_nearer ray_up_from_origin surf_above
              sphere_ahead bare_plate
              (fst (scatterTriag ray_up_from_origin surf_above no_hit 0)) 0%Z)
    as (_ & _ & _ & _ & _ & H & _).
  rewrite (H eq_refl). reflexivity.
Defined.

Example tie_keeps_the_triangle :
  fst (fst (fst (fst (candidates false
                        (mkScene surf_above sphere_ahead bare_plate)
                        ray_up_from_origin no_hit)))) =
    mkNearest 4 (Vec3 0 2 0) (Vec3 0 (-1) 0) 0 0.
Proof. vm_compute. reflexivity. Qed.

(** A ray that starts below the plate and travels towards the aperture, the
    plate taking part in the first test, is detected on its initial flight:
    its scatter count is 0, outside [[1, maxScatter]], and the histogram cell
    [nScatters - 1] does not exist. *)
Lemma detected_with_no_scatter :
  nScatters ray_below = 0%Z /\
  propagate_ray unit specular true (scene_of (run_inputs [] 20 1)) 20 ray_below tt =
    (Detected 1, ray_below, tt) /\
  ~ (1 <= nScatters ray_below <= 20)%Z /\
  array_incr (repeat 0%Z 20) (nScatters ray_below - 1) = None.
Proof.
  split; [reflexivity|]. split; [vm_compute; reflexivity|].
  split; [vm_compute; intros [H _]; apply H; reflexivity | reflexivity].
Qed.

(** The gateway run over that single ray. *)
Example run_with_direct_detection :
  mexFunction unit specular true aimed_at_aperture 3 18 (run_inputs [] 20 1) tt =
    MexUndefined.
Proof. vm_compute. reflexivity. Qed.

(** A ray sent down onto the flat sample is reflected into the aperture and
    detected after one scattering event. *)
Lemma detected_scatter_count_witness :
  nScatters ray_down = 0%Z /\
  propagate_ray nat specular true (scene_of (run_inputs flat_sample 20 1)) 20 ray_down O =
    (Detected 1, ray_scattered_once, O) /\
  (1 <= nScatters ray_scattered_once <= 20 - 1)%Z /\
  exists a', array_incr (repeat 0%Z 20) (nScatters ray_scattered_once - 1) = Some a'.
Proof.
  split; [reflexivity|].
  assert (Hrun : propagate_ray nat specular true (scene_of (run_inputs flat_sample 20 1))
                   20 ray_down O = (Detected 1, ray_scattered_once, O))
    by (vm_compute; reflexivity).
  split; [exact Hrun|].
  destruct (detected_scatter_count nat specular true
              (scene_of (run_inputs flat_sample 20 1)) 20 ray_down O 1
              ray_scattered_once O eq_refl Hrun)
    as [(H0 & _) | (Hn & Harr)].
  - discriminate H0.
  - split; [exact Hn | exact (Harr (repeat 0%Z 20) eq_refl)].
Defined.

(** Three rays over the flat sample with a budget of two scattering events: the
    first is detected after one event, the second is killed on the plate, the
    third misses the sample and escapes. *)
Lemma run_conserves_rays_witness :
  (0 <= nrays (run_inputs flat_sample 2 3))%Z /\
  mexFunction nat specular true (from_list [0; 3; 50]) 3 18
              (run_inputs flat_sample 2 3) O =
    MexReturn [mxDoubleScalar 1; mxDoubleScalar 1; mxInt32Row [1; 0]%Z] /\
  ray_fates nat specular true (from_list [0; 3; 50]) 3 (run_inputs flat_sample 2 3) O =
    [Detected 1; Killed; Escaped] /\
  diedNaturally 3 1 1 = 1%Z /\
  (1 + 1 + 1 = 3)%Z /\
  1%Z = sum [1; 0]%Z.
Proof.
  assert (HN : (0 <= nrays (run_inputs flat_sample 2 3))%Z) by (vm_compute; discriminate).
  assert (Hrun : mexFunction nat specular true (from_list [0; 3; 50]) 3 18
                   (run_inputs flat_sample 2 3) O =
                 MexReturn [mxDoubleScalar 1; mxDoubleScalar 1; mxInt32Row [1; 0]%Z])
    by (vm_compute; reflexivity).
  assert (Hf : ray_fates nat specular true (from_list [0; 3; 50]) 3
                 (run_inputs flat_sample 2 3) O = [Detected 1; Killed; Escaped])
    by (vm_compute; reflexivity).
  destruct (run_conserves_rays nat specular true (from_list [0; 3; 50]) 3 18
              (run_inputs flat_sample 2 3) O HN) as [_ H].
  destruct (H 1%Z 1%Z [1; 0]%Z Hrun) as (_ & _ & Hd & Hs & Hh).
  split; [exact HN|]. split; [exact Hrun|]. split; [exact Hf|].
  split; [reflexivity|]. split; [reflexivity | exact Hh].
Defined.

(** A call with 17 inputs, and one asking for six outputs. *)
Lemma mexFunction_checks_argument_counts_witness :
  mexFunction unit specular true aimed_at_aperture 3 17 (run_inputs [] 20 1) tt =
    MexError "MyToolbox:tracingMex:nrhs" "Eighteen inputs required for tracingMex." /\
  mexFunction unit specular true aimed_at_aperture 6 18 (run_inputs [] 20 1) tt =
    MexError "MyToolbox:tracingMex:nrhs" "Six outpus required for tracingMex.".
Proof.
  split.
  - apply (proj1 (mexFunction_checks_argument_counts unit specular true
                    aimed_at_aperture 3 17 (run_inputs [] 20 1) tt)).
    discriminate.
  - apply (proj1 (proj2 (mexFunction_checks_argument_counts unit specular true
                           aimed_at_aperture 6 18 (run_inputs [] 20 1) tt)));
      [reflexivity | discriminate].
Defined.

End Instances.

(** ** More on the order of binary64 numbers *)

Section FloatBounds.

Local Open Scope float_scope.

(** A finite number is below +infinity. *)
Lemma ltb_infinity x : is_finite x = true -> (x <? infinity) = true.
Proof.
  unfold is_finite, is_nan, is_infinity.
  rewrite !FloatAxioms.eqb_spec, ltb_spec, abs_spec.
  replace (Prim2SF infinity) with (S754_infinity false) by reflexivity.
  destruct (Prim2SF x) as [s|s| |s m e]; try destruct s; cbn;
    try discriminate; try reflexivity.
Qed.

(** A distance that is not below the minimum is not below a later minimum. *)
Lemma not_below_kept d st st' :
  (d <? min_dist st) = false -> kept_or_nearer st st' ->
  (d <? min_dist st') = false.
Proof.
  intros Hd [-> | Hlt]; [exact Hd|].
  destruct (d <? min_dist st') eqn:E; [|reflexivity].
  rewrite (ltb_trans _ _ _ E Hlt) in Hd. discriminate.
Qed.

End FloatBounds.
(** ** More on the triangle test *)

Section TriangleLoop.

Import Hits.
Local Open Scope float_scope.

Variable the_ray : Ray3D.
Variable sample : Surface3D.

Lemma scatterTriag_body_fst j (s : Nearest * Z) :
  fst (scatterTriag_body the_ray sample j s) =
  if accepted the_ray sample j
     && (triag_candidate_dist the_ray sample j <? min_dist (fst s))
  then triag_record the_ray sample j else fst s.
Proof.
  rewrite scatterTriag_body_branches. unfold accepted.
  destruct (considered the_ray sample j); [|reflexivity].
  destruct (snd (triag_solution the_ray sample j)); [|reflexivity].
  destruct (inside_forward _); [|reflexivity].
  cbn [andb]. destruct (_ <? _); reflexivity.
Qed.

Lemma scatterTriag_body_snd j (s : Nearest * Z) :
  snd (scatterTriag_body the_ray sample j s) =
  if accepted the_ray sample j then 1%Z else snd s.
Proof.
  rewrite scatterTriag_body_branches. unfold accepted.
  destruct (considered the_ray sample j); [|reflexivity].
  destruct (snd (triag_solution the_ray sample j)); [|reflexivity].
  destruct (inside_forward _); [|reflexivity].
  cbn [andb]. destruct (_ <? _); reflexivity.
Qed.

(** An invariant of the steps whose index lies in the range of the loop holds
    of its result. *)
Lemma for_loop_range_invariant {S : Type} (P : S -> Prop) (body : Z -> S -> S) :
  forall n start,
    (forall j s, (start <= j < start + Z.of_nat n)%Z -> P s -> P (body j s)) ->
    forall s, P s -> P (for_loop n start body s).
Proof.
  induction n as [|n IH]; intros start Hstep s Hs; simpl; [exact Hs|].
  apply IH.
  - intros j s' Hj. apply Hstep. lia.
  - apply Hstep; [lia | exact Hs].
Qed.

Lemma triag_loop_kept_or_nearer n start s :
  kept_or_nearer (fst s)
    (fst (for_loop n start (scatterTriag_body the_ray sample) s)).
Proof.
  apply (for_loop_invariant (fun s' => kept_or_nearer (fst s) (fst s')));
    [|apply kept_or_nearer_refl].
  intros j s' Hs'. apply (kept_or_nearer_trans _ _ _ Hs').
  destruct (scatterTriag_body_step the_ray sample j s') as [-> | (-> & _ & H)];
    [now left | right; exact H].
Qed.

Lemma triag_loop_not_below : forall n start s j,
  (start <= j < start + Z.of_nat n)%Z ->
  accepted the_ray sample j = true ->
  (triag_candidate_dist the_ray sample j <?
   min_dist (fst (for_loop n start (scatterTriag_body the_ray sample) s))) = false.
Proof.
  induction n as [|n IH]; intros start s j Hj Hacc; [lia|]. simpl.
  destruct (Z.eq_dec j start) as [-> | Hne].
  - apply not_below_kept with (st := fst (scatterTriag_body the_ray sample start s));
      [|apply triag_loop_kept_or_nearer].
    rewrite scatterTriag_body_fst, Hacc. cbn [andb].
    destruct (_ <? min_dist (fst s)) eqn:E; [|exact E].
    apply ltb_irrefl.
  - apply IH; [lia | exact Hacc].
Qed.

(** X1. The triangle test finds the nearest hit: no triangle of the surface
    that is hit lies strictly nearer than the minimum the test returns. *)
Theorem scatterTriag_returns_the_nearest st meets j :
  face_index sample j ->
  accepted the_ray sample j = true ->
  (triag_candidate_dist the_ray sample j <?
   min_dist (fst (scatterTriag the_ray sample st meets))) = false.
Proof.
  intros Hj Hacc. unfold scatterTriag. apply triag_loop_not_below; [|exact Hacc].
  unfold face_index, n_faces in *. lia.
Qed.

(** The record that the loop returns is the one it was given or the record of
    a triangle of the surface that is hit. *)
Lemma scatterTriag_provenance st meets :
  fst (scatterTriag the_ray sample st meets) = st \/
  exists k, face_index sample k /\ accepted the_ray sample k = true /\
            fst (scatterTriag the_ray sample st meets) = triag_record the_ray sample k.
Proof.
  unfold scatterTriag.
  apply (for_loop_range_invariant
           (fun s => fst s = st \/
                     exists k, face_index sample k /\
                               accepted the_ray sample k = true /\
                               fst s = triag_record the_ray sample k));
    [|now left].
  intros j s Hj Hinv. rewrite scatterTriag_body_fst.
  destruct (accepted the_ray sample j) eqn:Hacc; [|exact Hinv].
  cbn [andb]. destruct (_ <? _); [|exact Hinv].
  right. exists j. unfold face_index, n_faces in *. repeat split; auto; lia.
Qed.

(** X2. When the triangle test replaces the record, the new record is the one
    of a triangle of the surface that is hit: [tri_hit] is an index of the
    surface, [which_surface] its identifier, [nearest_n] the normal of that
    triangle and [min_dist] the squared distance to it. *)
Theorem scatterTriag_record_is_a_hit st meets :
  fst (scatterTriag the_ray sample st meets) <> st ->
  exists k,
    face_index sample k /\
    accepted the_ray sample k = true /\
    fst (scatterTriag the_ray sample st meets) = triag_record the_ray sample k /\
    tri_hit (fst (scatterTriag the_ray sample st meets)) = k /\
    which_surface (fst (scatterTriag the_ray sample st meets)) = surf_index sample /\
    nearest_n (fst (scatterTriag the_ray sample st meets)) =
      el_normal (get_element3D sample k) /\
    min_dist (fst (scatterTriag the_ray sample st meets)) =
      triag_candidate_dist the_ray sample k.
Proof.
  intros Hchanged.
  destruct (scatterTriag_provenance st meets) as [H | (k & Hk & Hacc & Hrec)];
    [contradiction|].
  exists k. rewrite Hrec. repeat split; auto; apply Hk.
Qed.

(** When no triangle of the surface is hit, the loop changes nothing. *)
Lemma scatterTriag_no_hit_unchanged st meets :
  (forall j, face_index sample j -> accepted the_ray sample j = false) ->
  scatterTriag the_ray sample st meets = (st, meets).
Proof.
  intros Hnone. unfold scatterTriag.
  apply (for_loop_range_invariant (fun s => s = (st, meets))); [|reflexivity].
  intros j s Hj ->.
  assert (Hacc : accepted the_ray sample j = false).
  { apply Hnone. unfold face_index, n_faces in *. lia. }
  apply injective_projections.
  - rewrite scatterTriag_body_fst, Hacc. reflexivity.
  - rewrite scatterTriag_body_snd, Hacc. reflexivity.
Qed.

(** Once a triangle in the range of the loop is hit, [meets] is 1 at the end. *)
Lemma triag_loop_meets j :
  accepted the_ray sample j = true ->
  forall n start s,
    (snd s = 1%Z \/ (start <= j < start + Z.of_nat n)%Z) ->
    snd (for_loop n start (scatterTriag_body the_ray sample) s) = 1%Z.
Proof.
  intros Hacc. induction n as [|n IH]; intros start s Hs; simpl.
  - destruct Hs as [Hs | Hs]; [exact Hs | lia].
  - apply IH. rewrite scatterTriag_body_snd.
    destruct (Z.eq_dec j start) as [-> | Hne].
    + left. now rewrite Hacc.
    + destruct Hs as [Hs | Hs]; [|right; lia].
      left. destruct (accepted the_ray sample start); [reflexivity | exact Hs].
Qed.

(** X3. The flag [meets] is set exactly by a hit: if some triangle of the
    surface is hit the test returns [meets = 1], whether or not that triangle
    is the nearest intersection; if none is hit the test returns the record
    and the flag it was given. *)
Theorem scatterTriag_meets_iff_hit st meets :
  ((exists j, face_index sample j /\ accepted the_ray sample j = true) ->
   snd (scatterTriag the_ray sample st meets) = 1%Z) /\
  ((forall j, face_index sample j -> accepted the_ray sample j = false) ->
   scatterTriag the_ray sample st meets = (st, meets)).
Proof.
  split; [|apply scatterTriag_no_hit_unchanged].
  intros (j & Hj & Hacc). unfold scatterTriag.
  apply (triag_loop_meets j Hacc). right. unfold face_index, n_faces in *. lia.
Qed.

(** X4. Culling: a surface each of whose triangles is the one the ray sits on,
    or has a normal with a positive component along the direction of the ray,
    or has its three vertices behind the ray, leaves the record and the flag
    as they were. *)
Theorem scatterTriag_culls_back_faces st meets :
  (forall j, face_index sample j ->
     (on_element the_ray = j /\ on_surface the_ray = surf_index sample) \/
     (0 <? dot (el_normal (get_element3D sample j)) (direction the_ray)) = true \/
     (behind (position the_ray) (direction the_ray)
             (el_a (get_element3D sample j)) = true /\
      behind (position the_ray) (direction the_ray)
             (el_b (get_element3D sample j)) = true /\
      behind (position the_ray) (direction the_ray)
             (el_c (get_element3D sample j)) = true)) ->
  scatterTriag the_ray sample st meets = (st, meets).
Proof.
  intros Hcull. apply scatterTriag_no_hit_unchanged.
  intros j Hj. unfold accepted, considered.
  destruct (Hcull j Hj) as [[He Hs] | [Hb | (Ha & Hb & Hc)]].
  - rewrite He, Hs, !Z.eqb_refl. reflexivity.
  - rewrite Hb, andb_false_r. reflexivity.
  - rewrite Ha, Hb, Hc, andb_false_r. reflexivity.
Qed.

(** X5. Testing the same surface again changes nothing: run from the record
    it has just returned, the triangle test returns that record. *)
Theorem scatterTriag_second_pass st meets meets' :
  fst (scatterTriag the_ray sample
         (fst (scatterTriag the_ray sample st meets)) meets') =
  fst (scatterTriag the_ray sample st meets).
Proof.
  set (r := fst (scatterTriag the_ray sample st meets)).
  unfold scatterTriag at 1.
  apply (for_loop_range_invariant (fun s => fst s = r)); [|reflexivity].
  intros j s Hj Hs. rewrite scatterTriag_body_fst, Hs.
  destruct (accepted the_ray sample j) eqn:Hacc; [|reflexivity].
  cbn [andb]. unfold r.
  unfold scatterTriag. rewrite triag_loop_not_below; [reflexivity | lia | exact Hacc].
Qed.

(** X6. Starting with no intersection ([min_dist] at +infinity), a surface
    with a triangle that is hit at a finite squared distance makes the test
    return a triangle of the surface that is hit. *)
Theorem scatterTriag_finite_hit_is_recorded st meets j :
  min_dist st = infinity ->
  face_index sample j ->
  accepted the_ray sample j = true ->
  is_finite (triag_candidate_dist the_ray sample j) = true ->
  exists k,
    face_index sample k /\
    accepted the_ray sample k = true /\
    fst (scatterTriag the_ray sample st meets) = triag_record the_ray sample k.
Proof.
  intros Hinf Hj Hacc Hfin.
  destruct (scatterTriag_provenance st meets) as [H | H]; [|exact H].
  exfalso.
  assert (Hnot : (triag_candidate_dist the_ray sample j <?
                  min_dist (fst (scatterTriag the_ray sample st meets))) = false).
  { unfold scatterTriag. apply triag_loop_not_below; [|exact Hacc].
    unfold face_index, n_faces in *. lia. }
  rewrite H, Hinf, (ltb_infinity _ Hfin) in Hnot. discriminate.
Qed.

End TriangleLoop.

(** ** More on the sphere and the back wall *)

Section SphereAndPlate.

Local Open Scope float_scope.

Variable the_ray : Ray3D.
Variable st : Nearest.

(** X7. Testing the same sphere again from the record just returned reports
    no hit and changes nothing: a recorded sphere hit is not strictly nearer
    than itself. *)
Theorem scatterSphere_second_test the_sphere :
  scatterSphere the_ray the_sphere (fst (scatterSphere the_ray the_sphere st)) =
  (fst (scatterSphere the_ray the_sphere st), 0%Z).
Proof.
  rewrite (scatterSphere_branches the_ray the_sphere
             (fst (scatterSphere the_ray the_sphere st))).
  destruct (sphere_discriminant the_ray the_sphere <? 0) eqn:Hd; [reflexivity|].
  rewrite (scatterSphere_branches the_ray the_sphere st), Hd.
  destruct ((sphere_dist the_ray the_sphere <? min_dist st)
            && (0 <? sphere_distance the_ray the_sphere)) eqn:Hhit; cbn [fst].
  - unfold sphere_record at 1. cbn [min_dist]. fold (sphere_dist the_ray the_sphere).
    rewrite ltb_irrefl. reflexivity.
  - rewrite Hhit. reflexivity.
Qed.

Variable wallPlate : NBackWall.

(** X9. The back wall reports an aperture between 0 and the number of
    apertures and a flag [meets] that is 0 or 1, never a detection together
    with a plate hit; the triangle index it leaves is the one it was given or
    -1, and the surface the one it was given or that of the plate. *)
Theorem multiBackWall_outputs_in_range :
  (0 <= snd (multiBackWall the_ray wallPlate st) <= n_detect wallPlate)%Z /\
  (snd (fst (multiBackWall the_ray wallPlate st)) = 0%Z \/
   snd (fst (multiBackWall the_ray wallPlate st)) = 1%Z) /\
  (snd (multiBackWall the_ray wallPlate st) = 0%Z \/
   snd (fst (multiBackWall the_ray wallPlate st)) = 0%Z) /\
  (tri_hit (fst (fst (multiBackWall the_ray wallPlate st))) = tri_hit st \/
   tri_hit (fst (fst (multiBackWall the_ray wallPlate st))) = (-1)%Z) /\
  (which_surface (fst (fst (multiBackWall the_ray wallPlate st))) = which_surface st \/
   which_surface (fst (fst (multiBackWall the_ray wallPlate st))) =
     plate_surf_index wallPlate).
Proof.
  pose proof (first_containing_range (wall_point the_ray) (apertures wallPlate) 1%Z)
    as R.
  fold (first_aperture the_ray wallPlate) in R.
  assert (Hk : (0 <= first_aperture the_ray wallPlate <= n_detect wallPlate)%Z)
    by (unfold n_detect; lia).
  assert (H0 : (0 <= 0 <= n_detect wallPlate)%Z) by (unfold n_detect; lia).
  rewrite multiBackWall_branches.
  destruct (0 <? c1 (direction the_ray)); [|cbn; auto 6].
  destruct (min_dist st <? wall_dist the_ray); [cbn; auto 6|].
  destruct (negb (first_aperture the_ray wallPlate =? 0)%Z && _); [cbn; auto 6|].
  destruct (plate_scatters the_ray wallPlate); [|cbn; auto 6].
  destruct (wall_dist the_ray <? min_dist st); cbn; auto 6.
Qed.

(** X10. A reported detection is real: when the back wall reports aperture
    [k > 0] the ray travels upwards, the plane is strictly nearer than the
    former minimum, the point on the plane lies inside the ellipse of aperture
    [k] and of no aperture before it, [meets] is 0, and the record is that of
    the point on the plane. *)
Theorem multiBackWall_detection_sound :
  snd (multiBackWall the_ray wallPlate st) <> 0%Z ->
  (0 <? c1 (direction the_ray)) = true /\
  (wall_dist the_ray <? min_dist st) = true /\
  (1 <= snd (multiBackWall the_ray wallPlate st) <= n_detect wallPlate)%Z /\
  (aperture_test (wall_point the_ray)
     (get_nth_aperture (snd (multiBackWall the_ray wallPlate st) - 1) wallPlate) <? 1)
    = true /\
  (forall i, (0 <= i < snd (multiBackWall the_ray wallPlate st) - 1)%Z ->
     (aperture_test (wall_point the_ray) (get_nth_aperture i wallPlate) <? 1) = false) /\
  snd (fst (multiBackWall the_ray wallPlate st)) = 0%Z /\
  fst (fst (multiBackWall the_ray wallPlate st)) =
    wall_record wallPlate (wall_alpha the_ray) (wall_point the_ray).
Proof.
  rewrite multiBackWall_branches.
  destruct (0 <? c1 (direction the_ray)); [|cbn; congruence].
  destruct (min_dist st <? wall_dist the_ray); [cbn; congruence|].
  destruct (negb (first_aperture the_ray wallPlate =? 0)%Z) eqn:Hk; cbn [andb].
  2:{ destruct (plate_scatters the_ray wallPlate);
        [destruct (wall_dist the_ray <? min_dist st)|]; cbn; congruence. }
  destruct (wall_dist the_ray <? min_dist st) eqn:Hnear.
  2:{ destruct (plate_scatters the_ray wallPlate); cbn; congruence. }
  cbn [fst snd]. intros _.
  apply negb_true_iff, Z.eqb_neq in Hk.
  pose proof (first_containing_range (wall_point the_ray) (apertures wallPlate) 1%Z)
    as R.
  destruct (first_containing_sound (wall_point the_ray) (apertures wallPlate) 1%Z)
    as [_ Hs]; [lia|].
  fold (first_aperture the_ray wallPlate) in R, Hs.
  destruct (Hs Hk) as [Hat Hbefore].
  split; [reflexivity|]. split; [reflexivity|].
  split; [unfold n_detect; lia|].
  split; [exact Hat|].
  split; [|split; reflexivity].
  intros i Hi. unfold get_nth_aperture. apply Hbefore. lia.
Qed.

(** X11. A plate that is not represented never scatters: with
    [plate_represent = 0] the flag [meets] is 0, and the record changes only
    with a detection. *)
Theorem multiBackWall_plate_not_represented :
  plate_represent wallPlate = 0%Z ->
  snd (fst (multiBackWall the_ray wallPlate st)) = 0%Z /\
  (snd (multiBackWall the_ray wallPlate st) = 0%Z ->
   fst (fst (multiBackWall the_ray wallPlate st)) = st).
Proof.
  intros Hrep. rewrite multiBackWall_branches.
  unfold plate_scatters. rewrite Hrep. cbn [Z.eqb negb]. rewrite andb_false_r.
  destruct (0 <? c1 (direction the_ray)); [|cbn; auto].
  destruct (min_dist st <? wall_dist the_ray); [cbn; auto|].
  destruct (negb (first_aperture the_ray wallPlate =? 0)%Z) eqn:Hk; cbn [andb].
  - destruct (wall_dist the_ray <? min_dist st); cbn [fst snd]; split; auto.
    apply negb_true_iff, Z.eqb_neq in Hk. intros E. contradiction.
  - cbn; auto.
Qed.

(** X12. Testing the same plate again from the record just returned reports
    no detection and leaves the record: the plate is detected only while it is
    strictly nearer than the recorded minimum. *)
Theorem multiBackWall_second_test :
  snd (multiBackWall the_ray wallPlate
         (fst (fst (multiBackWall the_ray wallPlate st)))) = 0%Z /\
  fst (fst (multiBackWall the_ray wallPlate
              (fst (fst (multiBackWall the_ray wallPlate st))))) =
    fst (fst (multiBackWall the_ray wallPlate st)).
Proof.
  rewrite (multiBackWall_branches the_ray wallPlate
             (fst (fst (multiBackWall the_ray wallPlate st)))).
  rewrite (multiBackWall_branches the_ray wallPlate st).
  unfold wall_dist, wall_record.
  destruct (0 <? c1 (direction the_ray)); [|split; reflexivity].
  destruct (min_dist st <? wall_alpha the_ray * wall_alpha the_ray) eqn:Hfar;
    [cbn [fst snd]; rewrite Hfar; split; reflexivity|].
  destruct (wall_alpha the_ray * wall_alpha the_ray <? min_dist st) eqn:Hnear;
    destruct (negb (first_aperture the_ray wallPlate =? 0)%Z);
    destruct (plate_scatters the_ray wallPlate);
    cbn [andb fst snd min_dist];
    rewrite ?ltb_irrefl, ?Hfar, ?Hnear, ?andb_false_r; cbn [fst snd];
    split; reflexivity.
Qed.

(** X13. Starting with no intersection ([min_dist] at +infinity), a ray that
    travels upwards and meets the plane at a finite squared distance is
    detected in the first aperture that contains the point on the plane;
    when none contains it the plate is hit if the point lies within its disc
    and the plate is represented, and nothing is recorded otherwise. *)
Theorem multiBackWall_from_infinity :
  min_dist st = infinity ->
  (0 <? c1 (direction the_ray)) = true ->
  is_finite (wall_dist the_ray) = true ->
  multiBackWall the_ray wallPlate st =
    if negb (first_aperture the_ray wallPlate =? 0)%Z
    then (wall_record wallPlate (wall_alpha the_ray) (wall_point the_ray), 0%Z,
          first_aperture the_ray wallPlate)
    else if plate_scatters the_ray wallPlate
         then (wall_record wallPlate (wall_alpha the_ray) (wall_point the_ray),
               1%Z, 0%Z)
         else (st, 0%Z, 0%Z).
Proof.
  intros Hinf Hup Hfin.
  assert (Hnear : (wall_dist the_ray <? min_dist st) = true)
    by (rewrite Hinf; apply ltb_infinity, Hfin).
  rewrite multiBackWall_branches, Hup, (ltb_asym _ _ Hnear), Hnear, andb_true_r.
  reflexivity.
Qed.

(** X8. Starting with no intersection, a sphere whose quadratic has a
    non-negative discriminant and a strictly positive smaller root with a
    finite square is hit, and its record is written. *)
Theorem scatterSphere_from_infinity the_sphere :
  min_dist st = infinity ->
  (sphere_discriminant the_ray the_sphere <? 0) = false ->
  (0 <? sphere_distance the_ray the_sphere) = true ->
  is_finite (sphere_dist the_ray the_sphere) = true ->
  scatterSphere the_ray the_sphere st = (sphere_record the_ray the_sphere, 1%Z).
Proof.
  intros Hinf Hd Hpos Hfin.
  rewrite scatterSphere_branches, Hd, Hpos, Hinf, (ltb_infinity _ Hfin).
  reflexivity.
Qed.

End SphereAndPlate.

(** ** More on the gateway *)

Section HistogramProps.

Import RunDetail.
Local Open Scope Z_scope.

Variable Rng : Type.
Variable new_direction : vec3 -> Nearest -> Rng -> vec3 * Rng.
Variable first_plate : bool.
Variable source_sampler : Rng -> vec3 * vec3 * Rng.

Lemma incr_nth_length : forall a k, List.length (incr_nth a k) = List.length a.
Proof.
  induction a as [|x a IH]; intros [|k]; simpl; auto.
Qed.

Lemma incr_nth_nth : forall a j k,
  (j < List.length a)%nat ->
  nth k (incr_nth a j) 0 = nth k a 0 + (if Nat.eqb k j then 1 else 0).
Proof.
  induction a as [|x a IH]; intros [|j] [|k] Hj; simpl in *; try lia.
  apply IH. lia.
Qed.

Lemma tally_cons {A : Type} (p : A -> bool) x l :
  tally p (x :: l) = (if p x then 1 else 0) + tally p l.
Proof. unfold tally. cbn [filter]. destruct (p x); cbn [List.length]; lia. Qed.

Lemma array_incr_some a k :
  0 <= k < Z.of_nat (List.length a) ->
  array_incr a k = Some (incr_nth a (Z.to_nat k)).
Proof.
  intros Hk. unfold array_incr.
  replace ((0 <=? k) && (k <? Z.of_nat (List.length a))) with true; [reflexivity|].
  symmetry. apply andb_true_iff. split; [apply Z.leb_le | apply Z.ltb_lt]; lia.
Qed.

Lemma array_incr_none a k :
  ~ (0 <= k < Z.of_nat (List.length a)) -> array_incr a k = None.
Proof.
  intros Hk. unfold array_incr.
  destruct ((0 <=? k) && (k <? Z.of_nat (List.length a))) eqn:E; [|reflexivity].
  apply andb_true_iff in E. destruct E as [E1 E2].
  apply Z.leb_le in E1. apply Z.ltb_lt in E2. lia.
Qed.

(** One step of the loop, on the fate and the final state of its ray. *)
Lemma trace_one_step i s :
  let '(the_ray, g) := create_ray_source Rng source_sampler (my_rng Rng s) in
  let '(t, r, g') :=
    propagate_ray Rng new_direction first_plate (scene_of i) (maxScatters i) the_ray g in
  trace_one Rng new_direction first_plate source_sampler i s =
  match t with
  | Detected _ =>
      match array_incr (numScattersRay Rng s) (nScatters r - 1) with
      | Some a => Some (mkLoop Rng (killed Rng s) (cntr_detected Rng s + 1) a g')
      | None => None
      end
  | Killed =>
      Some (mkLoop Rng (killed Rng s + 1) (cntr_detected Rng s) (numScattersRay Rng s) g')
  | Escaped =>
      Some (mkLoop Rng (killed Rng s) (cntr_detected Rng s) (numScattersRay Rng s) g')
  end.
Proof.
  unfold trace_one, trace_ray_simple.
  destruct (create_ray_source Rng source_sampler (my_rng Rng s)) as [the_ray g].
  destruct (propagate_ray _ _ _ _ _ _ _) as [[t r] g'].
  destruct t; reflexivity.
Qed.

(** What the loop adds to each cell of the histogram. *)
Lemma trace_loop_histogram i : forall n s s',
  trace_loop Rng new_direction first_plate source_sampler n i s = Some s' ->
  List.length (numScattersRay Rng s') = List.length (numScattersRay Rng s) /\
  forall k, (k < List.length (numScattersRay Rng s))%nat ->
    nth k (numScattersRay Rng s') 0 =
    nth k (numScattersRay Rng s) 0 +
    tally (detected_after (Z.of_nat k + 1))
          (ray_results Rng new_direction first_plate source_sampler n i (my_rng Rng s)).
Proof.
  induction n as [|n IH]; intros s s'; simpl.
  - intros [= <-]. split; [reflexivity|]. intros k _. unfold tally. simpl. lia.
  - pose proof (trace_one_step i s) as Hstep.
    destruct (create_ray_source Rng source_sampler (my_rng Rng s)) as [the_ray g].
    destruct (propagate_ray _ _ _ _ _ _ _) as [[t r] g'].
    rewrite Hstep. clear Hstep.
    destruct t as [w| |].
    + destruct (array_incr (numScattersRay Rng s) (nScatters r - 1)) as [a|] eqn:Ha;
        [|discriminate].
      intros Hloop. destruct (IH _ _ Hloop) as [Hlen Hnth].
      cbn [numScattersRay my_rng] in Hlen, Hnth.
      unfold array_incr in Ha.
      destruct ((0 <=? nScatters r - 1)
                && (nScatters r - 1 <? Z.of_nat (List.length (numScattersRay Rng s))))
        eqn:Hin; [|discriminate].
      apply andb_true_iff in Hin. destruct Hin as [H0 H1].
      apply Z.leb_le in H0. apply Z.ltb_lt in H1.
      injection Ha as <-. rewrite incr_nth_length in Hlen, Hnth.
      split; [exact Hlen|]. intros k Hk.
      rewrite (Hnth k Hk), incr_nth_nth by lia.
      rewrite tally_cons. unfold detected_after at 2. cbn [fst snd is_detected andb].
      destruct (Nat.eqb_spec k (Z.to_nat (nScatters r - 1))) as [-> | Hne].
      * replace (nScatters r =? _) with true; [lia|].
        symmetry. apply Z.eqb_eq. lia.
      * replace (nScatters r =? _) with false; [lia|].
        symmetry. apply Z.eqb_neq. lia.
    + intros Hloop. destruct (IH _ _ Hloop) as [Hlen Hnth].
      cbn [numScattersRay my_rng] in Hlen, Hnth.
      split; [exact Hlen|]. intros k Hk. rewrite (Hnth k Hk), tally_cons.
      unfold detected_after at 2. cbn [fst is_detected andb]. lia.
    + intros Hloop. destruct (IH _ _ Hloop) as [Hlen Hnth].
      cbn [numScattersRay my_rng] in Hlen, Hnth.
      split; [exact Hlen|]. intros k Hk. rewrite (Hnth k Hk), tally_cons.
      unfold detected_after at 2. cbn [fst is_detected andb]. lia.
Qed.

(** X14. When the gateway returns, the histogram has [maxScatters] cells, and
    cell [k] holds the number of rays of the run that were detected with
    exactly [k + 1] scattering events. *)
Theorem mexFunction_histogram_cells nlhs nrhs i rng0 cntr nkilled hist :
  mexFunction Rng new_direction first_plate source_sampler nlhs nrhs i rng0 =
    MexReturn [mxDoubleScalar cntr; mxDoubleScalar nkilled; mxInt32Row hist] ->
  List.length hist = Z.to_nat (maxScatters i) /\
  forall k, (k < List.length hist)%nat ->
    nth k hist 0 =
    tally (detected_after (Z.of_nat k + 1))
          (ray_results Rng new_direction first_plate source_sampler
                       (Z.to_nat (nrays i)) i rng0).
Proof.
  unfold mexFunction.
  destruct (negb (nrhs =? 18)); [discriminate|].
  destruct (negb (nlhs =? 3)); [discriminate|].
  destruct (trace_loop _ _ _ _ _ _ _) as [s|] eqn:Hloop; [|discriminate].
  intros [= <- <- <-].
  destruct (trace_loop_histogram _ _ _ _ Hloop) as [Hlen Hnth].
  cbn [numScattersRay my_rng] in Hlen, Hnth. rewrite repeat_length in Hlen.
  split; [exact Hlen|]. intros k Hk.
  rewrite Hnth by (rewrite repeat_length; lia).
  rewrite nth_repeat. lia.
Qed.

(** The loop stops on an increment outside the histogram exactly when a ray is
    detected with a scatter count that has no cell. *)
Lemma trace_loop_undefined i : forall n s,
  trace_loop Rng new_direction first_plate source_sampler n i s = None <->
  Exists (fun r => detected_off_histogram (List.length (numScattersRay Rng s)) r = true)
         (ray_results Rng new_direction first_plate source_sampler n i (my_rng Rng s)).
Proof.
  induction n as [|n IH]; intros s; simpl.
  - split; [discriminate | intros H; inversion H].
  - pose proof (trace_one_step i s) as Hstep.
    destruct (create_ray_source Rng source_sampler (my_rng Rng s)) as [the_ray g].
    destruct (propagate_ray _ _ _ _ _ _ _) as [[t r] g'].
    rewrite Hstep. clear Hstep. rewrite Exists_cons.
    unfold detected_off_histogram at 1. cbn [fst snd].
    destruct t as [w| |]; cbn [is_detected andb].
    + destruct (Z_le_dec 1 (nScatters r)) as [H1 | H1];
        [destruct (Z_le_dec (nScatters r) (Z.of_nat (List.length (numScattersRay Rng s))))
           as [H2 | H2]|].
      * rewrite array_incr_some by lia.
        rewrite IH. cbn [numScattersRay my_rng]. rewrite incr_nth_length.
        replace (1 <=? nScatters r) with true by (symmetry; apply Z.leb_le; lia).
        replace (nScatters r <=? _) with true by (symmetry; apply Z.leb_le; lia).
        cbn. intuition discriminate.
      * rewrite array_incr_none by lia.
        replace (nScatters r <=? _) with false by (symmetry; apply Z.leb_gt; lia).
        rewrite andb_false_r. cbn. intuition.
      * rewrite array_incr_none by lia.
        replace (1 <=? nScatters r) with false by (symmetry; apply Z.leb_gt; lia).
        cbn. intuition.
    + rewrite IH. cbn [numScattersRay my_rng]. intuition discriminate.
    + rewrite IH. cbn [numScattersRay my_rng]. intuition discriminate.
Qed.

(** X15. A call of the gateway with the right numbers of arguments runs into
    an increment outside the histogram exactly when some ray of the run is
    detected with a scatter count outside [[1, maxScatters]]; otherwise it
    returns its three outputs. *)
Theorem mexFunction_undefined_iff nlhs nrhs i rng0 :
  mexFunction Rng new_direction first_plate source_sampler nlhs nrhs i rng0 =
    MexUndefined <->
  nrhs = 18 /\ nlhs = 3 /\
  Exists (fun r => detected_off_histogram (Z.to_nat (maxScatters i)) r = true)
         (ray_results Rng new_direction first_plate source_sampler
                      (Z.to_nat (nrays i)) i rng0).
Proof.
  unfold mexFunction.
  destruct (Z.eqb_spec nrhs 18) as [-> | Hr]; cbn [negb];
    [|split; [discriminate | intros (E & _); contradiction]].
  destruct (Z.eqb_spec nlhs 3) as [-> | Hl]; cbn [negb];
    [|split; [discriminate | intros (_ & E & _); contradiction]].
  pose proof (trace_loop_undefined i (Z.to_nat (nrays i))
                (mkLoop Rng 0 0 (repeat 0 (Z.to_nat (maxScatters i))) rng0)) as H.
  cbn [numScattersRay my_rng] in H. rewrite repeat_length in H.
  destruct (trace_loop _ _ _ _ _ _ _) as [s|].
  - split; [discriminate|]. intros (_ & _ & E). apply H in E. discriminate.
  - split; [|reflexivity]. intros _. repeat split. apply H. reflexivity.
Qed.

End HistogramProps.

(** ** The pixels of a rectangular scan *)

Section ScanPixels.

Import Scan.
Local Open Scope Z_scope.

(** X16. Step [i_] of the loop of rectangularScan works on a pixel of the
    image, and it is the pixel whose cell the step writes: for [1 <= i_ <=
    nx_pixels*nz_pixels] the pixel [(z_pix, x_pix)] lies within the image and
    the cell in row [z_pix + 1] and column [x_pix + 1] has linear index
    [i_]. *)
Theorem pixel_of_step nx_pixels nz_pixels i_ :
  1 <= i_ <= nx_pixels * nz_pixels ->
  0 < nz_pixels ->
  0 <= z_pix nz_pixels i_ < nz_pixels /\
  0 <= x_pix nz_pixels i_ < nx_pixels /\
  linear_index nz_pixels (z_pix nz_pixels i_ + 1) (x_pix nz_pixels i_ + 1) = i_.
Proof.
  intros Hi Hnz. unfold z_pix, x_pix, linear_index. cbv zeta.
  pose proof (Z.mod_pos_bound i_ nz_pixels Hnz) as Hm.
  pose proof (Z.div_mod i_ nz_pixels ltac:(lia)) as Hd.
  remember (i_ / nz_pixels) as q eqn:Eq. remember (i_ mod nz_pixels) as m eqn:Em.
  assert (Hq0 : 0 <= q) by (subst q; apply Z.div_pos; lia).
  assert (Hqn : q < nx_pixels \/ (q = nx_pixels /\ m = 0)).
  { destruct (Z_lt_ge_dec q nx_pixels) as [Hlt | Hge]; [now left | right].
    destruct (Z.eq_dec q nx_pixels) as [-> | Hne]; [split; [reflexivity | lia]|].
    assert ((nx_pixels + 1) * nz_pixels <= q * nz_pixels)
      by (apply Z.mul_le_mono_nonneg_r; lia).
    lia. }
  destruct (Z.eqb_spec m 0) as [E0 | E0].
  - replace (m - 1 =? -1) with true by (symmetry; apply Z.eqb_eq; lia).
    assert (Hq1 : 1 <= q).
    { destruct (Z.eq_dec q 0) as [Hz | Hz]; [|lia]. rewrite Hz, E0 in Hd. lia. }
    repeat split; lia.
  - replace (m - 1 =? -1) with false by (symmetry; apply Z.eqb_neq; lia).
    repeat split; lia.
Qed.

(** X17. Every pixel of the image is the pixel of exactly the step that
    writes its cell: for [0 <= z < nz_pixels] and [0 <= x < nx_pixels] the
    linear index [i_] of the cell in row [z + 1] and column [x + 1] is a step
    of the loop, and that step works on pixel [(z, x)]. *)
Theorem step_of_pixel nx_pixels nz_pixels z x :
  0 <= z < nz_pixels ->
  0 <= x < nx_pixels ->
  1 <= linear_index nz_pixels (z + 1) (x + 1) <= nx_pixels * nz_pixels /\
  z_pix nz_pixels (linear_index nz_pixels (z + 1) (x + 1)) = z /\
  x_pix nz_pixels (linear_index nz_pixels (z + 1) (x + 1)) = x.
Proof.
  intros Hz Hx. unfold z_pix, x_pix, linear_index. cbv zeta.
  replace (x + 1 - 1) with x by lia.
  split; [nia|].
  destruct (Z.eq_dec (z + 1) nz_pixels) as [E | E].
  - assert (Hm : (z + 1 + x * nz_pixels) mod nz_pixels = 0).
    { rewrite E. replace (nz_pixels + x * nz_pixels) with ((x + 1) * nz_pixels) by lia.
      apply Z.mod_mul. lia. }
    assert (Hq : (z + 1 + x * nz_pixels) / nz_pixels = x + 1).
    { rewrite E. replace (nz_pixels + x * nz_pixels) with ((x + 1) * nz_pixels) by lia.
      apply Z.div_mul. lia. }
    rewrite Hm, Hq. cbn. lia.
  - assert (Hm : (z + 1 + x * nz_pixels) mod nz_pixels = z + 1).
    { rewrite Z.mod_add by lia. apply Z.mod_small. lia. }
    assert (Hq : (z + 1 + x * nz_pixels) / nz_pixels = x).
    { rewrite Z.div_add by lia. rewrite Z.div_small by lia. lia. }
    rewrite Hm, Hq.
    replace (z + 1 - 1 =? -1) with false by (symmetry; apply Z.eqb_neq; lia).
    replace (z + 1 =? 0) with false by (symmetry; apply Z.eqb_neq; lia).
    lia.
Qed.

End ScanPixels.

(** ** The arguments of traceSimpleMulti *)

Section WrapperArgs.

Import Wrapper.
Local Open Scope string_scope.

Variable Val : Type.
Variable brace : Val -> nat -> option Val.

Lemma parse_step_unrecognised i_ name value (w : Workspace Val) :
  recognised name = false ->
  parse_step Val brace i_ name value w =
  Some (mkWorkspace Val (ray_pos Val w) (ray_dir Val w) (sample_surface Val w)
          (maxScatter Val w) (plate Val w) (sphere Val w)
          (warnings Val w ++ [not_recognised i_])%list).
Proof.
  unfold recognised, parse_step. intros H.
  repeat (apply orb_false_iff in H; destruct H as [H ?]).
  repeat match goal with E : (_ =? _) = false |- _ => rewrite E; clear E end.
  reflexivity.
Qed.

(** A step on a recognised name reads the variables only, keeps the warnings,
    and does not depend on the position. *)
Lemma parse_step_recognised i_ i' name value (w w' : Workspace Val) :
  recognised name = true ->
  variables Val w = variables Val w' ->
  match parse_step Val brace i_ name value w,
        parse_step Val brace i' name value w' with
  | Some w1, Some w1' =>
      variables Val w1 = variables Val w1' /\
      warnings Val w1 = warnings Val w /\ warnings Val w1' = warnings Val w'
  | None, None => True
  | _, _ => False
  end.
Proof.
  unfold recognised, parse_step, variables. intros H [= E1 E2 E3 E4 E5 E6].
  destruct (name =? "rays");
    [destruct (brace value 1), (brace value 2); cbn; auto; repeat split; congruence|].
  destruct (name =? "sample"); [cbn; repeat split; congruence|].
  destruct (name =? "maxScatter"); [cbn; repeat split; congruence|].
  destruct (name =? "plate"); [cbn; repeat split; congruence|].
  destruct (name =? "sphere"); [cbn; repeat split; congruence|].
  discriminate H.
Qed.

(** X18. Names that the function does not recognise only raise warnings:
    leaving them out, with the values that follow them, changes neither
    whether the arguments are read without error nor any of the six variables
    read from them; and when the arguments are read without error, the
    warnings are one message [' Input <i_> not recognised.'] for each position
    [i_] of an unrecognised name, in order. *)
Theorem parse_args_unrecognised_only_warn (args : list (string * Val)) :
  option_map (variables Val) (parse_args Val brace 1 args (cleared Val)) =
  option_map (variables Val)
    (parse_args Val brace 1 (filter (fun a => recognised (fst a)) args) (cleared Val)) /\
  forall w, parse_args Val brace 1 args (cleared Val) = Some w ->
    warnings Val w =
    map not_recognised (unrecognised_positions 1 args).
Proof.
  assert (G : forall (l : list (string * Val)) i_ i' (w w' : Workspace Val),
    variables Val w = variables Val w' ->
    option_map (variables Val) (parse_args Val brace i_ l w) =
    option_map (variables Val)
      (parse_args Val brace i' (filter (fun a => recognised (fst a)) l) w') /\
    forall w1, parse_args Val brace i_ l w = Some w1 ->
      warnings Val w1 =
      (warnings Val w ++ map not_recognised (unrecognised_positions i_ l))%list).
  { induction l as [|[name value] l IH]; intros i_ i' w w' Hvars.
    - cbn. split; [now rewrite Hvars|]. intros w1 [= <-]. now rewrite app_nil_r.
    - cbn [parse_args filter fst unrecognised_positions].
      destruct (recognised name) eqn:Hrec.
      + cbn [parse_args].
        pose proof (parse_step_recognised i_ i' name value w w' Hrec Hvars) as Hs.
        destruct (parse_step Val brace i_ name value w) as [w1|];
          destruct (parse_step Val brace i' name value w') as [w1'|];
          try contradiction; [|split; [reflexivity | discriminate]].
        destruct Hs as (Hv & Hw & _).
        destruct (IH (i_ + 2) (i' + 2) w1 w1' Hv) as [IH1 IH2].
        split; [exact IH1|]. intros w2 H2. rewrite (IH2 w2 H2), Hw. reflexivity.
      + rewrite (parse_step_unrecognised i_ name value w Hrec).
        set (w1 := mkWorkspace Val _ _ _ _ _ _ _).
        destruct (IH (i_ + 2) i' w1 w' Hvars) as [IH1 IH2].
        split; [exact IH1|]. intros w2 H2. rewrite (IH2 w2 H2).
        unfold w1. cbn [warnings map]. rewrite <- app_assoc. reflexivity. }
  destruct (G args 1 1 (cleared Val) (cleared Val) eq_refl) as [G1 G2].
  split; [exact G1|]. intros w Hw. rewrite (G2 w Hw). reflexivity.
Qed.

(** X19. The last occurrence of a name wins: when the arguments are read
    without error, [sample_surface], [maxScatter], [plate] and [sphere] hold
    the value given with the last occurrence of their name, [ray_pos] and
    [ray_dir] the two elements of the value given with the last ['rays'], and
    a variable whose name does not occur is left unassigned. *)
Theorem parse_args_last_wins (args : list (string * Val)) w :
  parse_args Val brace 1 args (cleared Val) = Some w ->
  sample_surface Val w = last_named Val "sample" args /\
  maxScatter Val w = last_named Val "maxScatter" args /\
  plate Val w = last_named Val "plate" args /\
  sphere Val w = last_named Val "sphere" args /\
  ray_pos Val w =
    match last_named Val "rays" args with Some v => brace v 1 | None => None end /\
  ray_dir Val w =
    match last_named Val "rays" args with Some v => brace v 2 | None => None end.
Proof.
  assert (G : forall (l : list (string * Val)) i_ (w0 w1 : Workspace Val),
    parse_args Val brace i_ l w0 = Some w1 ->
    sample_surface Val w1 =
      match last_named Val "sample" l with Some v => Some v | None => sample_surface Val w0 end /\
    maxScatter Val w1 =
      match last_named Val "maxScatter" l with Some v => Some v | None => maxScatter Val w0 end /\
    plate Val w1 =
      match last_named Val "plate" l with Some v => Some v | None => plate Val w0 end /\
    sphere Val w1 =
      match last_named Val "sphere" l with Some v => Some v | None => sphere Val w0 end /\
    ray_pos Val w1 =
      match last_named Val "rays" l with Some v => brace v 1 | None => ray_pos Val w0 end /\
    ray_dir Val w1 =
      match last_named Val "rays" l with Some v => brace v 2 | None => ray_dir Val w0 end).
  { induction l as [|[name value] l IH]; intros i_ w0 w1.
    - cbn. intros [= <-]. repeat split.
    - cbn [parse_args last_named].
      destruct (parse_step Val brace i_ name value w0) as [w'|] eqn:Hstep;
        [|discriminate].
      intros Hrest. destruct (IH _ _ _ Hrest) as (H1 & H2 & H3 & H4 & H5 & H6).
      rewrite H1, H2, H3, H4, H5, H6. clear H1 H2 H3 H4 H5 H6 IH Hrest.
      unfold parse_step in Hstep.
      destruct (String.eqb_spec name "rays") as [-> | Nr].
      { destruct (brace value 1) as [p|] eqn:Hp; [|discriminate].
        destruct (brace value 2) as [d|] eqn:Hd; [|discriminate].
        injection Hstep as <-. cbn.
        repeat split;
          match goal with |- context [last_named Val ?n l] =>
            destruct (last_named Val n l); auto end. }
      destruct (String.eqb_spec name "sample") as [-> | Ns].
      { injection Hstep as <-. cbn.
        repeat split;
          match goal with |- context [last_named Val ?n l] =>
            destruct (last_named Val n l); auto end. }
      destruct (String.eqb_spec name "maxScatter") as [-> | Nm].
      { injection Hstep as <-. cbn.
        repeat split;
          match goal with |- context [last_named Val ?n l] =>
            destruct (last_named Val n l); auto end. }
      destruct (String.eqb_spec name "plate") as [-> | Np].
      { injection Hstep as <-. cbn.
        repeat split;
          match goal with |- context [last_named Val ?n l] =>
            destruct (last_named Val n l); auto end. }
      destruct (String.eqb_spec name "sphere") as [-> | Nh].
      { injection Hstep as <-. cbn.
        repeat split;
          match goal with |- context [last_named Val ?n l] =>
            destruct (last_named Val n l); auto end. }
      injection Hstep as <-. cbn [sample_surface maxScatter plate sphere ray_pos ray_dir].
      repeat split;
        match goal with |- context [last_named Val ?n l] =>
          destruct (last_named Val n l); auto end. }
  intros Hw. destruct (G args 1 (cleared Val) w Hw) as (H1 & H2 & H3 & H4 & H5 & H6).
  cbn [cleared sample_surface maxScatter plate sphere ray_pos ray_dir] in *.
  rewrite H1, H2, H3, H4, H5, H6.
  repeat split;
    match goal with |- context [last_named Val ?n args] =>
      destruct (last_named Val n args); auto end.
Qed.

End WrapperArgs.

(** ** The scatter count of a detected ray *)

Section DetectedRays.

Import RunDetail.
Local Open Scope Z_scope.

Variable Rng : Type.
Variable new_direction : vec3 -> Nearest -> Rng -> vec3 * Rng.
Variable first_plate : bool.
Variable source_sampler : Rng -> vec3 * vec3 * Rng.






End DetectedRays.

(** ** The further statements on concrete rays *)

Section MoreInstances.

Import Hits RunDetail Scan MoreTestData.
Local Open Scope float_scope.

(** Both triangles above the origin are hit; the nearer one, tested second,
    is returned. *)
Example nearer_triangle_is_returned :
  accepted ray_up_from_origin two_above 0 = true /\
  accepted ray_up_from_origin two_above 1 = true /\
  scatterTriag ray_up_from_origin two_above no_hit 0 =
    (mkNearest 1 (Vec3 0 1 0) (Vec3 0 (-1) 0) 1 0, 1%Z).
Proof. repeat split; vm_compute; reflexivity. Qed.

Lemma scatterTriag_returns_the_nearest_witness :
  face_index two_above 0 /\
  accepted ray_up_from_origin two_above 0 = true /\
  (triag_candidate_dist ray_up_from_origin two_above 0 <?
   min_dist (fst (scatterTriag ray_up_from_origin two_above no_hit 0))) = false.
Proof.
  assert (Hj : face_index two_above 0) by (unfold face_index, n_faces; simpl; lia).
  split; [exact Hj|]. split; [reflexivity|].
  exact (scatterTriag_returns_the_nearest ray_up_from_origin two_above no_hit 0%Z 0%Z
           Hj eq_refl).
Defined.

Lemma scatterTriag_record_is_a_hit_witness :
  fst (scatterTriag ray_up_from_origin two_above no_hit 0) <> no_hit /\
  exists k,
    face_index two_above k /\
    tri_hit (fst (scatterTriag ray_up_from_origin two_above no_hit 0)) = k.
Proof.
  assert (Hne : fst (scatterTriag ray_up_from_origin two_above no_hit 0) <> no_hit)
    by (vm_compute; congruence).
  split; [exact Hne|].
  destruct (scatterTriag_record_is_a_hit ray_up_from_origin two_above no_hit 0%Z Hne)
    as (k & Hk & _ & _ & Ht & _).
  exists k. split; [exact Hk | exact Ht].
Defined.

Lemma scatterTriag_meets_iff_hit_witness :
  snd (scatterTriag ray_up_from_origin two_above nearer_hit 0) = 1%Z /\
  fst (scatterTriag ray_up_from_origin two_above nearer_hit 0) = nearer_hit.
Proof.
  split; [|vm_compute; reflexivity].
  apply (proj1 (scatterTriag_meets_iff_hit ray_up_from_origin two_above nearer_hit 0%Z)).
  exists 0%Z. split; [unfold face_index, n_faces; simpl; lia | reflexivity].
Defined.

Lemma scatterTriag_culls_back_faces_witness :
  (0 <? dot (el_normal (get_element3D surf_above 0)) (direction ray_off_facet)) = true /\
  scatterTriag ray_off_facet surf_above nearer_hit 0 = (nearer_hit, 0%Z).
Proof.
  split; [reflexivity|].
  apply scatterTriag_culls_back_faces.
  intros j Hj. right. left.
  assert (E : j = 0%Z) by (unfold face_index, n_faces in Hj; simpl in Hj; lia).
  rewrite E. reflexivity.
Defined.

Lemma scatterTriag_finite_hit_is_recorded_witness :
  min_dist no_hit = infinity /\
  is_finite (triag_candidate_dist ray_up_from_origin two_above 0) = true /\
  exists k, face_index two_above k /\
            fst (scatterTriag ray_up_from_origin two_above no_hit 0) =
              triag_record ray_up_from_origin two_above k.
Proof.
  split; [reflexivity|]. split; [reflexivity|].
  assert (Hj : face_index two_above 0) by (unfold face_index, n_faces; simpl; lia).
  destruct (scatterTriag_finite_hit_is_recorded ray_up_from_origin two_above no_hit
              0%Z 0%Z eq_refl Hj eq_refl eq_refl) as (k & Hk & _ & Hrec).
  exists k. split; [exact Hk | exact Hrec].
Defined.

Lemma multiBackWall_detection_sound_witness :
  snd (multiBackWall ray_below two_apertures no_hit) <> 0%Z /\
  (aperture_test (wall_point ray_below)
     (get_nth_aperture (snd (multiBackWall ray_below two_apertures no_hit) - 1)
                       two_apertures) <? 1) = true /\
  snd (fst (multiBackWall ray_below two_apertures no_hit)) = 0%Z.
Proof.
  assert (Hne : snd (multiBackWall ray_below two_apertures no_hit) <> 0%Z)
    by (vm_compute; discriminate).
  split; [exact Hne|].
  destruct (multiBackWall_detection_sound ray_below no_hit two_apertures Hne)
    as (_ & _ & _ & Hat & _ & Hm & _).
  split; [exact Hat | exact Hm].
Defined.

Lemma multiBackWall_plate_not_represented_witness :
  plate_represent open_plate = 0%Z /\
  snd (fst (multiBackWall ray_below open_plate no_hit)) = 0%Z /\
  fst (fst (multiBackWall ray_below open_plate no_hit)) = no_hit.
Proof.
  split; [reflexivity|].
  destruct (multiBackWall_plate_not_represented ray_below no_hit open_plate eq_refl)
    as [Hm Hrec].
  split; [exact Hm | apply Hrec; reflexivity].
Defined.

Lemma multiBackWall_from_infinity_witness :
  min_dist no_hit = infinity /\
  (0 <? c1 (direction ray_below)) = true /\
  is_finite (wall_dist ray_below) = true /\
  multiBackWall ray_below two_apertures no_hit =
    (wall_record two_apertures 1 (Vec3 0 0 0), 0%Z, 2%Z).
Proof.
  split; [reflexivity|]. split; [reflexivity|]. split; [reflexivity|].
  exact (multiBackWall_from_infinity ray_below no_hit two_apertures
           eq_refl eq_refl eq_refl).
Defined.

Lemma scatterSphere_from_infinity_witness :
  min_dist no_hit = infinity /\
  (sphere_discriminant ray_up_from_origin sphere_ahead <? 0) = false /\
  (0 <? sphere_distance ray_up_from_origin sphere_ahead) = true /\
  is_finite (sphere_dist ray_up_from_origin sphere_ahead) = true /\
  snd (scatterSphere ray_up_from_origin sphere_ahead no_hit) = 1%Z.
Proof.
  split; [reflexivity|]. split; [reflexivity|]. split; [reflexivity|].
  split; [reflexivity|].
  rewrite (scatterSphere_from_infinity ray_up_from_origin no_hit sphere_ahead
             eq_refl eq_refl eq_refl eq_refl).
  reflexivity.
Defined.

(** The run over three rays of [run_conserves_rays_witness]: one ray detected
    after one scattering event, so cell 0 holds 1 and cell 1 holds 0. *)
Lemma mexFunction_histogram_cells_witness :
  mexFunction nat specular true (from_list [0; 3; 50]) 3 18
              (run_inputs flat_sample 2 3) O =
    MexReturn [mxDoubleScalar 1; mxDoubleScalar 1; mxInt32Row [1; 0]%Z] /\
  tally (detected_after 1)
        (ray_results nat specular true (from_list [0; 3; 50]) 3
                     (run_inputs flat_sample 2 3) O) = 1%Z /\
  tally (detected_after 2)
        (ray_results nat specular true (from_list [0; 3; 50]) 3
                     (run_inputs flat_sample 2 3) O) = 0%Z.
Proof.
  assert (Hrun : mexFunction nat specular true (from_list [0; 3; 50]) 3 18
                   (run_inputs flat_sample 2 3) O =
                 MexReturn [mxDoubleScalar 1; mxDoubleScalar 1; mxInt32Row [1; 0]%Z])
    by (vm_compute; reflexivity).
  split; [exact Hrun|].
  destruct (mexFunction_histogram_cells nat specular true (from_list [0; 3; 50]) 3 18
              (run_inputs flat_sample 2 3) O 1%Z 1%Z [1; 0]%Z Hrun) as [_ Hcells].
  split.
  - symmetry. exact (Hcells 0%nat ltac:(simpl; lia)).
  - symmetry. exact (Hcells 1%nat ltac:(simpl; lia)).
Defined.

(** The run over the ray aimed at the aperture is undefined. *)
Lemma mexFunction_undefined_iff_witness :
  mexFunction unit specular true aimed_at_aperture 3 18 (run_inputs [] 20 1) tt =
    MexUndefined.
Proof.
  apply (proj2 (mexFunction_undefined_iff unit specular true aimed_at_aperture 3 18
                  (run_inputs [] 20 1) tt)).
  split; [reflexivity|]. split; [reflexivity|].
  apply Exists_cons_hd. vm_compute. reflexivity.
Defined.

(** An image of 3 by 2 pixels: step 4 works on pixel [z = 1], [x = 1]. *)
Lemma pixel_of_step_witness :
  (1 <= 4 <= 3 * 2)%Z /\ (0 < 2)%Z /\
  z_pix 2 4 = 1%Z /\ x_pix 2 4 = 1%Z /\
  linear_index 2 (z_pix 2 4 + 1) (x_pix 2 4 + 1) = 4%Z.
Proof.
  assert (Hi : (1 <= 4 <= 3 * 2)%Z) by lia.
  assert (Hnz : (0 < 2)%Z) by lia.
  split; [exact Hi|]. split; [exact Hnz|].
  split; [reflexivity|]. split; [reflexivity|].
  exact (proj2 (proj2 (pixel_of_step 3 2 4 Hi Hnz))).
Defined.

Lemma step_of_pixel_witness :
  (0 <= 1 < 2)%Z /\ (0 <= 2 < 3)%Z /\
  linear_index 2 (1 + 1) (2 + 1) = 6%Z /\
  z_pix 2 (linear_index 2 (1 + 1) (2 + 1)) = 1%Z /\
  x_pix 2 (linear_index 2 (1 + 1) (2 + 1)) = 2%Z.
Proof.
  assert (Hz : (0 <= 1 < 2)%Z) by lia.
  assert (Hx : (0 <= 2 < 3)%Z) by lia.
  split; [exact Hz|]. split; [exact Hx|]. split; [reflexivity|].
  exact (proj2 (step_of_pixel 3 2 1 2 Hz Hx)).
Defined.

(** Three name/value pairs, the second with a name that has no case: the
    second ['sample'] is the one kept. *)
Lemma parse_args_last_wins_witness :
  let args := [("sample"%string, 7%nat); ("colour"%string, 1%nat); ("sample"%string, 9%nat)] in
  let w := Wrapper.mkWorkspace nat None None (Some 9%nat) None None None
             [" Input 3 not recognised."%string] in
  Wrapper.parse_args nat (fun _ _ => None) 1 args (Wrapper.cleared nat) = Some w /\
  Wrapper.sample_surface nat w = Some 9%nat.
Proof.
  split; [reflexivity|].
  exact (proj1 (parse_args_last_wins nat (fun _ _ => None)
    [("sample"%string, 7%nat); ("colour"%string, 1%nat); ("sample"%string, 9%nat)]
    (Wrapper.mkWorkspace nat None None (Some 9%nat) None None None
       [" Input 3 not recognised."%string]) eq_refl)).
Defined.

End MoreInstances.

(** ** A run whose source emits downwards *)

Section DetectedRaysInstance.

Import RunDetail.
Local Open Scope float_scope.


End DetectedRaysInstance.
